(** * SlotSwapper: the swap negotiation engine

    A shallow embedding of the request handlers of [routers/swaps.py] and
    [routers/events.py] over the three tables declared in [models/].

    Every table has a UUID primary key, so a table is a finite map from the
    key to the remaining columns of the row.  A handler runs against the
    database it is given and returns what FastAPI sends back (the value it
    returns, or the [HTTPException] it raises) together with the database as
    it is once the request is over. *)

From stdpp Require Import gmap strings list fin_maps sorting.

Abbreviation UUID := N (only parsing).

(** ** models/ *)

Inductive EventStatusEnum := BUSY | SWAPPABLE | SWAP_PENDING.

Inductive SwapRequestStatusEnum := PENDING | ACCEPTED | REJECTED.

#[global] Instance EventStatusEnum_eq_dec : EqDecision EventStatusEnum.
Proof. solve_decision. Defined.

#[global] Instance SwapRequestStatusEnum_eq_dec : EqDecision SwapRequestStatusEnum.
Proof. solve_decision. Defined.

Module User.
(** [models/user.py]; the primary key [id] is the key of the table. *)
Record t := mk {
  email : string;
  password_hash : string;
  name : string
}.
End User.

Module Event.
(** [models/event.py]; [start_time] and [end_time] are instants. *)
Record t := mk {
  title : string;
  start_time : Z;
  end_time : Z;
  status : EventStatusEnum;
  owner_id : UUID
}.

Definition set_title (v : string) (e : t) : t :=
  mk v (start_time e) (end_time e) (status e) (owner_id e).
Definition set_start_time (v : Z) (e : t) : t :=
  mk (title e) v (end_time e) (status e) (owner_id e).
Definition set_end_time (v : Z) (e : t) : t :=
  mk (title e) (start_time e) v (status e) (owner_id e).
Definition set_status (v : EventStatusEnum) (e : t) : t :=
  mk (title e) (start_time e) (end_time e) v (owner_id e).
Definition set_owner_id (v : UUID) (e : t) : t :=
  mk (title e) (start_time e) (end_time e) (status e) v.
End Event.

Module SwapRequest.
(** [models/swap_request.py]. *)
Record t := mk {
  requester_id : UUID;
  offered_event_id : UUID;
  requested_event_id : UUID;
  status : SwapRequestStatusEnum;
  created_at : Z;
  updated_at : Z
}.

(** An UPDATE of the row also runs [onupdate=func.now()] on [updated_at]. *)
Definition set_status (v : SwapRequestStatusEnum) (now : Z) (s : t) : t :=
  mk (requester_id s) (offered_event_id s) (requested_event_id s) v
     (created_at s) now.
End SwapRequest.

(** The three tables. *)
Record Database := mkDatabase {
  users : gmap N User.t;
  events : gmap N Event.t;
  swap_requests : gmap N SwapRequest.t
}.

Definition with_events (evs : gmap N Event.t) (db : Database) : Database :=
  mkDatabase (users db) evs (swap_requests db).

(** How the store serves one request: to the end; or failing at
    [db.commit()], before anything is written; or failing once the commit
    is through, at the reads that follow it ([db.refresh(row)] and the
    reloading of the rows the commit has expired). *)
Inductive StoreOutcome := Served | FailsAtCommit | FailsAfterCommit.

#[global] Instance StoreOutcome_eq_dec : EqDecision StoreOutcome.
Proof. solve_decision. Defined.

(** What one request draws from outside the handler: the value of
    [uuid.uuid4()] for a row it inserts, the database clock [func.now()],
    and how the store serves it. *)
Record Env := mkRequest {
  uuid4 : UUID;
  now : Z;
  store : StoreOutcome
}.

(** The store carries the request through, the commit and the reads after
    it. *)
Definition commit_ok (env : Env) : bool :=
  match store env with Served => true | _ => false end.

(** A request that the store serves to the end, or fails at the commit. *)
Definition mkEnv (id : UUID) (t : Z) (ok : bool) : Env :=
  mkRequest id t (if ok then Served else FailsAtCommit).

(** ** schemas/ *)

Module EventResponse.
Record t := mk {
  id : UUID;
  title : string;
  start_time : Z;
  end_time : Z;
  status : EventStatusEnum;
  owner_id : UUID
}.

Definition model_validate (key : UUID) (e : Event.t) : t :=
  mk key (Event.title e) (Event.start_time e) (Event.end_time e)
     (Event.status e) (Event.owner_id e).
End EventResponse.

Module UserResponse.
Record t := mk {
  id : UUID;
  email : string;
  name : string
}.

Definition model_validate (key : UUID) (u : User.t) : t :=
  mk key (User.email u) (User.name u).
End UserResponse.

Module SwappableEventResponse.
Record t := mk {
  event : EventResponse.t;
  owner_name : string
}.
End SwappableEventResponse.

Module SwapRequestResponse.
Record t := mk {
  id : UUID;
  requester_id : UUID;
  offered_event_id : UUID;
  requested_event_id : UUID;
  status : SwapRequestStatusEnum;
  created_at : Z;
  updated_at : Z;
  offered_event_details : EventResponse.t;
  requested_event_details : EventResponse.t;
  requester_details : UserResponse.t
}.

Definition build (key : UUID) (s : SwapRequest.t)
    (offered requested : EventResponse.t) (requester : UserResponse.t) : t :=
  mk key (SwapRequest.requester_id s) (SwapRequest.offered_event_id s)
     (SwapRequest.requested_event_id s) (SwapRequest.status s)
     (SwapRequest.created_at s) (SwapRequest.updated_at s)
     offered requested requester.
End SwapRequestResponse.

Record SwapRequestCreate := mkSwapRequestCreate {
  my_slot_id : UUID;
  their_slot_id : UUID
}.

Record SwapResponseAction := mkSwapResponseAction {
  accepted : bool
}.

Module EventCreate.
Record t := mk {
  title : string;
  start_time : Z;
  end_time : Z
}.
End EventCreate.

Module EventUpdate.
(** Every field is optional; an absent field leaves the column alone. *)
Record t := mk {
  title : option string;
  start_time : option Z;
  end_time : option Z;
  status : option EventStatusEnum
}.
End EventUpdate.

(** ** What a handler gives back *)

Record HTTPException := mkHTTPException {
  status_code : Z;
  detail : string
}.

Inductive Response (A : Type) :=
  | Return (a : A)
  | Raise (e : HTTPException).
Arguments Return {A} a.
Arguments Raise {A} e.

Definition HTTP_400_BAD_REQUEST : Z := 400.
Definition HTTP_403_FORBIDDEN : Z := 403.
Definition HTTP_404_NOT_FOUND : Z := 404.
Definition HTTP_500_INTERNAL_SERVER_ERROR : Z := 500.

Definition raise {A} (code : Z) (msg : string) : Response A :=
  Raise (mkHTTPException code msg).

(** An exception that no handler catches: FastAPI answers 500. *)
Definition unhandled {A} : Response A :=
  raise HTTP_500_INTERNAL_SERVER_ERROR "Internal Server Error".

(** The failure kinds of the specification, read off the status code. *)
Definition fails_with {A} (code : Z) (r : Response A) : Prop :=
  ∃ msg, r = raise code msg.

Definition NotFound {A} : Response A → Prop := fails_with HTTP_404_NOT_FOUND.
Definition PermissionDenied {A} : Response A → Prop := fails_with HTTP_403_FORBIDDEN.
Definition InvalidOperation {A} : Response A → Prop := fails_with HTTP_400_BAD_REQUEST.
Definition InternalError {A} : Response A → Prop :=
  fails_with HTTP_500_INTERNAL_SERVER_ERROR.

Definition is_failure {A} (r : Response A) : Prop :=
  match r with Return _ => False | Raise _ => True end.

Definition is_success {A} (r : Response A) : Prop :=
  match r with Return _ => True | Raise _ => False end.

(** ** The store: constraints checked when a transaction commits *)

(** INSERT of a new row: the store refuses a primary key that is taken. *)
Definition insert_row {T} (key : UUID) (row : T) (table : gmap N T)
    : option (gmap N T) :=
  match table !! key with
  | Some _ => None
  | None => Some (<[key := row]> table)
  end.

(** A swap request that points at the event, through either foreign key. *)
Definition references (event_id : UUID) (s : SwapRequest.t) : Prop :=
  SwapRequest.offered_event_id s = event_id ∨
  SwapRequest.requested_event_id s = event_id.

#[global] Instance references_dec event_id s : Decision (references event_id s).
Proof. unfold references. apply _. Defined.

Definition referenced (event_id : UUID) (db : Database) : Prop :=
  map_Exists (λ _ s, references event_id s) (swap_requests db).

#[global] Instance referenced_dec event_id db : Decision (referenced event_id db).
Proof. unfold referenced. apply _. Defined.

(** [db.commit()]: the pending state [session] becomes the database, unless
    the store fails at the commit, in which case the database stays as it
    was. *)
Definition commit (env : Env) (session : Database) : option Database :=
  match store env with
  | FailsAtCommit => None
  | Served | FailsAfterCommit => Some session
  end.

(** [db.refresh(row)], and any later read of the request: they raise if the
    store fails after the commit, which nothing can take back then. *)
Definition refresh_ok (env : Env) : bool :=
  match store env with
  | FailsAfterCommit => false
  | Served | FailsAtCommit => true
  end.

(** ** routers/swaps.py *)

(** The rows of [events JOIN users ON events.owner_id = users.id]. *)
Definition join_owner (db : Database) (r : N * Event.t)
    : option (N * Event.t * string) :=
  owner ← users db !! Event.owner_id r.2;
  Some (r.1, r.2, User.name owner).

Definition start_time_asc (a b : N * Event.t * string) : Prop :=
  (Event.start_time a.1.2 ≤ Event.start_time b.1.2)%Z.

#[global] Instance start_time_asc_dec a b : Decision (start_time_asc a b).
Proof. unfold start_time_asc. apply _. Defined.

(** The statement of [list_swappable_slots], executed.  SQL leaves the order
    of rows with equal sort keys open; the rows are sorted here by a stable
    merge sort, and nothing below depends on how ties come out. *)
Definition swappable_rows (current_user : UUID) (db : Database)
    : list (N * Event.t * string) :=
  let rows := omap (join_owner db) (map_to_list (events db)) in
  let rows := filter (λ r, Event.status r.1.2 = SWAPPABLE) rows in
  let rows := filter (λ r, Event.owner_id r.1.2 ≠ current_user) rows in
  merge_sort start_time_asc rows.

Definition swappable_response (r : N * Event.t * string)
    : SwappableEventResponse.t :=
  SwappableEventResponse.mk (EventResponse.model_validate r.1.1 r.1.2) r.2.

Definition list_swappable_slots (current_user : UUID) (db : Database)
    : Response (list SwappableEventResponse.t) * Database :=
  let rows := swappable_rows current_user db in
  (Return (swappable_response <$> rows), db).

(** [request_swap] has no [try]: an exception of [db.commit()], of
    [db.refresh(swap)] or of the reads that build the response reaches the
    caller as 500, and after the commit the rows stay written. *)
Definition request_swap (env : Env) (current_user : UUID * User.t)
    (payload : SwapRequestCreate) (db : Database)
    : Response SwapRequestResponse.t * Database :=
  match events db !! my_slot_id payload with
  | None => (raise HTTP_404_NOT_FOUND "My slot not found", db)
  | Some my_slot =>
  match events db !! their_slot_id payload with
  | None => (raise HTTP_404_NOT_FOUND "Their slot not found", db)
  | Some their_slot =>
    if decide (Event.owner_id my_slot ≠ current_user.1) then
      (raise HTTP_403_FORBIDDEN "You do not own the offered slot", db)
    else if decide (Event.owner_id their_slot = current_user.1) then
      (raise HTTP_400_BAD_REQUEST "Cannot request swap with your own slot", db)
    else if decide (Event.status my_slot ≠ SWAPPABLE) then
      (raise HTTP_400_BAD_REQUEST "Your slot is not swappable", db)
    else if decide (Event.status their_slot ≠ SWAPPABLE) then
      (raise HTTP_400_BAD_REQUEST "Requested slot is not swappable", db)
    else
      let swap := SwapRequest.mk current_user.1 (my_slot_id payload)
                    (their_slot_id payload) PENDING (now env) (now env) in
      let evs := alter (Event.set_status SWAP_PENDING)
                   (my_slot_id payload) (events db) in
      let evs := alter (Event.set_status SWAP_PENDING)
                   (their_slot_id payload) evs in
      match sws ← insert_row (uuid4 env) swap (swap_requests db);
            commit env (mkDatabase (users db) evs sws) with
      | None => (unhandled, db)
      | Some db' =>
        if refresh_ok env then
          (Return (SwapRequestResponse.build (uuid4 env) swap
                     (EventResponse.model_validate (my_slot_id payload)
                        (Event.set_status SWAP_PENDING my_slot))
                     (EventResponse.model_validate (their_slot_id payload)
                        (Event.set_status SWAP_PENDING their_slot))
                     (UserResponse.model_validate current_user.1 current_user.2)),
           db')
        else (unhandled, db')
      end
  end end.

(** One row of [swap_requests] joined with its offered event, its requested
    event and its requester: the inner joins drop a request for which one of
    the three is missing. *)
Definition join_details (db : Database) (r : N * SwapRequest.t)
    : option (N * SwapRequest.t * Event.t * Event.t * User.t) :=
  offered_evt ← events db !! SwapRequest.offered_event_id r.2;
  requested_evt ← events db !! SwapRequest.requested_event_id r.2;
  requester ← users db !! SwapRequest.requester_id r.2;
  Some (r.1, r.2, offered_evt, requested_evt, requester).

Definition created_at_desc (a b : N * SwapRequest.t * Event.t * Event.t * User.t)
    : Prop :=
  (SwapRequest.created_at b.1.1.1.2 ≤ SwapRequest.created_at a.1.1.1.2)%Z.

#[global] Instance created_at_desc_dec a b : Decision (created_at_desc a b).
Proof. unfold created_at_desc. apply _. Defined.

Definition swap_response (r : N * SwapRequest.t * Event.t * Event.t * User.t)
    : SwapRequestResponse.t :=
  let '(key, swap, offered_event, requested_event, requester) := r in
  SwapRequestResponse.build key swap
    (EventResponse.model_validate (SwapRequest.offered_event_id swap) offered_event)
    (EventResponse.model_validate (SwapRequest.requested_event_id swap) requested_event)
    (UserResponse.model_validate (SwapRequest.requester_id swap) requester).

Definition incoming_rows (current_user : UUID) (db : Database)
    : list (N * SwapRequest.t * Event.t * Event.t * User.t) :=
  let rows := omap (join_details db) (map_to_list (swap_requests db)) in
  let rows := filter (λ r, SwapRequest.status r.1.1.1.2 = PENDING) rows in
  let rows := filter (λ r, Event.owner_id r.1.2 = current_user) rows in
  merge_sort created_at_desc rows.

Definition list_incoming_requests (current_user : UUID) (db : Database)
    : Response (list SwapRequestResponse.t) * Database :=
  let rows := incoming_rows current_user db in
  (Return (swap_response <$> rows), db).

Definition outgoing_rows (current_user : UUID) (db : Database)
    : list (N * SwapRequest.t * Event.t * Event.t * User.t) :=
  let rows := omap (join_details db) (map_to_list (swap_requests db)) in
  let rows := filter (λ r, SwapRequest.requester_id r.1.1.1.2 = current_user) rows in
  merge_sort created_at_desc rows.

Definition list_outgoing_requests (current_user : UUID) (db : Database)
    : Response (list SwapRequestResponse.t) * Database :=
  let rows := outgoing_rows current_user db in
  (Return (swap_response <$> rows), db).

(** The orders asked of the two kinds of listing. *)
Definition by_start_time_asc (x y : SwappableEventResponse.t) : Prop :=
  (EventResponse.start_time (SwappableEventResponse.event x)
   ≤ EventResponse.start_time (SwappableEventResponse.event y))%Z.

Definition by_created_at_desc (x y : SwapRequestResponse.t) : Prop :=
  (SwapRequestResponse.created_at y ≤ SwapRequestResponse.created_at x)%Z.

(** The two branches of [respond_to_swap], as writes to the rows held by the
    session.  Both events are addressed by their keys, so that a request
    whose two sides are one and the same row is handled as the ORM does it:
    one object, written twice. *)
Definition revert_status (e : Event.t) : Event.t :=
  if decide (Event.status e = SWAP_PENDING)
  then Event.set_status SWAPPABLE e else e.

Definition reject_swap (swap : SwapRequest.t) (evs : gmap N Event.t)
    : gmap N Event.t :=
  let evs := alter revert_status (SwapRequest.offered_event_id swap) evs in
  alter revert_status (SwapRequest.requested_event_id swap) evs.

Definition accept_swap (swap : SwapRequest.t)
    (offered_event requested_event : Event.t) (evs : gmap N Event.t)
    : gmap N Event.t :=
  let original_requested_owner := Event.owner_id requested_event in
  let evs := alter (Event.set_owner_id (Event.owner_id offered_event))
               (SwapRequest.requested_event_id swap) evs in
  let evs := alter (Event.set_owner_id original_requested_owner)
               (SwapRequest.offered_event_id swap) evs in
  let evs := alter (Event.set_status BUSY)
               (SwapRequest.requested_event_id swap) evs in
  alter (Event.set_status BUSY) (SwapRequest.offered_event_id swap) evs.

(** The writes of [respond_to_swap], [db.commit()] and [db.refresh(swap)]
    stand in one [try], whose handler calls [db.rollback()] and raises 500.
    A rollback that comes after the commit has nothing left to undo. *)
Definition respond_to_swap (env : Env) (current_user : UUID)
    (request_id : UUID) (action : SwapResponseAction) (db : Database)
    : Response SwapRequestResponse.t * Database :=
  match swap_requests db !! request_id with
  | None => (raise HTTP_404_NOT_FOUND "Swap request not found", db)
  | Some swap =>
  match events db !! SwapRequest.offered_event_id swap,
        events db !! SwapRequest.requested_event_id swap with
  | Some offered_event, Some requested_event =>
    if decide (Event.owner_id requested_event ≠ current_user) then
      (raise HTTP_403_FORBIDDEN "Not authorized to respond to this request", db)
    else if decide (SwapRequest.status swap ≠ PENDING) then
      (raise HTTP_400_BAD_REQUEST "Swap request already processed", db)
    else
      let '(swap', evs') :=
        if negb (accepted action) then
          (SwapRequest.set_status REJECTED (now env) swap,
           reject_swap swap (events db))
        else
          (SwapRequest.set_status ACCEPTED (now env) swap,
           accept_swap swap offered_event requested_event (events db)) in
      match commit env (mkDatabase (users db) evs'
                          (<[request_id := swap']> (swap_requests db))) with
      | None =>
        (raise HTTP_500_INTERNAL_SERVER_ERROR "Failed to process swap response", db)
      | Some db' =>
        if negb (refresh_ok env) then
          (raise HTTP_500_INTERNAL_SERVER_ERROR "Failed to process swap response",
           db')
        else
          match users db' !! SwapRequest.requester_id swap',
                events db' !! SwapRequest.offered_event_id swap',
                events db' !! SwapRequest.requested_event_id swap' with
          | Some requester, Some offered_ev, Some requested_ev =>
            (Return (swap_response (request_id, swap', offered_ev, requested_ev, requester)),
             db')
          | _, _, _ => (unhandled, db')
          end
      end
  | _, _ => (raise HTTP_404_NOT_FOUND "Related events not found", db)
  end end.

(** ** routers/events.py *)

Definition create_event (env : Env) (current_user : UUID)
    (payload : EventCreate.t) (db : Database)
    : Response EventResponse.t * Database :=
  let event := Event.mk (EventCreate.title payload) (EventCreate.start_time payload)
                 (EventCreate.end_time payload) BUSY current_user in
  match evs ← insert_row (uuid4 env) event (events db);
        commit env (with_events evs db) with
  | None => (unhandled, db)
  | Some db' =>
    if refresh_ok env then
      (Return (EventResponse.model_validate (uuid4 env) event), db')
    else (unhandled, db')
  end.

(** [db.query(Event).filter(Event.id == event_id,
                            Event.owner_id == current_user.id).first()] *)
Definition query_own_event (event_id current_user : UUID) (db : Database)
    : option Event.t :=
  e ← events db !! event_id;
  if decide (Event.owner_id e = current_user) then Some e else None.

Definition get_event (current_user : UUID) (event_id : UUID) (db : Database)
    : Response EventResponse.t * Database :=
  match query_own_event event_id current_user db with
  | None => (raise HTTP_404_NOT_FOUND "Event not found", db)
  | Some event => (Return (EventResponse.model_validate event_id event), db)
  end.

Definition apply_update (payload : EventUpdate.t) (event : Event.t) : Event.t :=
  let event := match EventUpdate.title payload with
               | Some v => Event.set_title v event | None => event end in
  let event := match EventUpdate.start_time payload with
               | Some v => Event.set_start_time v event | None => event end in
  let event := match EventUpdate.end_time payload with
               | Some v => Event.set_end_time v event | None => event end in
  match EventUpdate.status payload with
  | Some v => Event.set_status v event | None => event end.

Definition update_event (env : Env) (current_user : UUID) (event_id : UUID)
    (payload : EventUpdate.t) (db : Database)
    : Response EventResponse.t * Database :=
  match query_own_event event_id current_user db with
  | None => (raise HTTP_404_NOT_FOUND "Event not found", db)
  | Some event =>
    let event := apply_update payload event in
    match commit env (with_events (<[event_id := event]> (events db)) db) with
    | None => (unhandled, db)
    | Some db' =>
      if refresh_ok env then
        (Return (EventResponse.model_validate event_id event), db')
      else (unhandled, db')
    end
  end.

(** The foreign keys of [swap_requests] have no ON DELETE rule: the store
    refuses to delete an event that a swap request points at. *)
Definition delete_event (env : Env) (current_user : UUID) (event_id : UUID)
    (db : Database) : Response unit * Database :=
  match query_own_event event_id current_user db with
  | None => (raise HTTP_404_NOT_FOUND "Event not found", db)
  | Some event =>
    if decide (referenced event_id db) then (unhandled, db)
    else
      match commit env (with_events (delete event_id (events db)) db) with
      | None => (unhandled, db)
      | Some db' => (Return (), db')
      end
  end.

(** The state a response commits, when it gets that far. *)
Definition responded (env : Env) (request_id : UUID) (action : SwapResponseAction)
    (swap : SwapRequest.t) (offered_event requested_event : Event.t)
    (db : Database) : Database :=
  if negb (accepted action) then
    mkDatabase (users db) (reject_swap swap (events db))
      (<[request_id := SwapRequest.set_status REJECTED (now env) swap]>
         (swap_requests db))
  else
    mkDatabase (users db)
      (accept_swap swap offered_event requested_event (events db))
      (<[request_id := SwapRequest.set_status ACCEPTED (now env) swap]>
         (swap_requests db)).

(** ** The foreign keys of the schema

    [events.owner_id] and [swap_requests.requester_id] reference [users.id];
    [swap_requests.offered_event_id] and [swap_requests.requested_event_id]
    reference [events.id].  The store enforces them. *)
Definition owners_exist (us : gmap N User.t) (evs : gmap N Event.t) : Prop :=
  map_Forall (λ _ e, is_Some (us !! Event.owner_id e)) evs.

Definition swap_references_exist (us : gmap N User.t) (evs : gmap N Event.t)
    (sws : gmap N SwapRequest.t) : Prop :=
  map_Forall (λ _ s,
      is_Some (us !! SwapRequest.requester_id s) ∧
      is_Some (evs !! SwapRequest.offered_event_id s) ∧
      is_Some (evs !! SwapRequest.requested_event_id s)) sws.

Definition foreign_keys (db : Database) : Prop :=
  owners_exist (users db) (events db) ∧
  swap_references_exist (users db) (events db) (swap_requests db).

#[global] Instance foreign_keys_dec db : Decision (foreign_keys db).
Proof.
  unfold foreign_keys, owners_exist, swap_references_exist. apply _.
Defined.

(** ** Reachable states *)

(** [auth/jwt_handler.py]: the user named by the token is looked up, and
    the request is turned down (401) before any handler runs if there is no
    such user.  Decoding the token is left out: [token_user] is the
    identifier it carries. *)
Definition get_current_user (token_user : UUID) (db : Database)
    : option (UUID * User.t) :=
  user ← users db !! token_user;
  Some (token_user, user).

(** The public operations that write. *)
Inductive Operation :=
  | CreateEvent (env : Env) (token_user : UUID) (payload : EventCreate.t)
  | UpdateEvent (env : Env) (token_user : UUID) (event_id : UUID)
      (payload : EventUpdate.t)
  | DeleteEvent (env : Env) (token_user : UUID) (event_id : UUID)
  | RequestSwap (env : Env) (token_user : UUID) (payload : SwapRequestCreate)
  | RespondToSwap (env : Env) (token_user : UUID) (request_id : UUID)
      (action : SwapResponseAction).

Definition token_user_of (op : Operation) : UUID :=
  match op with
  | CreateEvent _ u _ | UpdateEvent _ u _ _ | DeleteEvent _ u _
  | RequestSwap _ u _ | RespondToSwap _ u _ _ => u
  end.

(** The database after one request. *)
Definition run (op : Operation) (db : Database) : Database :=
  match get_current_user (token_user_of op) db with
  | None => db
  | Some current_user =>
    match op with
    | CreateEvent env _ payload =>
        (create_event env current_user.1 payload db).2
    | UpdateEvent env _ event_id payload =>
        (update_event env current_user.1 event_id payload db).2
    | DeleteEvent env _ event_id =>
        (delete_event env current_user.1 event_id db).2
    | RequestSwap env _ payload =>
        (request_swap env current_user payload db).2
    | RespondToSwap env _ request_id action =>
        (respond_to_swap env current_user.1 request_id action db).2
    end
  end.

(** From registered users with no event and no swap request yet, through
    the operations that [allowed] lets through in the state they meet. *)
Inductive reachable_by (allowed : Operation → Database → Prop)
    : Database → Prop :=
  | reachable_init us : reachable_by allowed (mkDatabase us ∅ ∅)
  | reachable_step op db :
      reachable_by allowed db → allowed op db →
      reachable_by allowed (run op db).

Definition reachable : Database → Prop := reachable_by (λ _ _, True).

(** An [update_event] that sets the status of a slot that is SWAP_PENDING:
    the edit that the handler does not guard against. *)
Definition edits_locked_slot (op : Operation) (db : Database) : Prop :=
  match op with
  | UpdateEvent _ _ event_id payload =>
      is_Some (EventUpdate.status payload) ∧
      Event.status <$> events db !! event_id = Some SWAP_PENDING
  | _ => False
  end.

Definition reachable_without_edits_of_locked_slots : Database → Prop :=
  reachable_by (λ op db, ¬ edits_locked_slot op db).

(** No slot is a side of two PENDING swap requests. *)
Definition at_most_one_pending (db : Database) : Prop :=
  ∀ slot k1 k2 s1 s2,
    swap_requests db !! k1 = Some s1 → swap_requests db !! k2 = Some s2 →
    SwapRequest.status s1 = PENDING → SwapRequest.status s2 = PENDING →
    references slot s1 → references slot s2 →
    k1 = k2.

(** The lock that [request_swap] takes: a slot that is a side of a PENDING
    swap request is SWAP_PENDING. *)
Definition pending_slots_locked (db : Database) : Prop :=
  ∀ k s slot,
    swap_requests db !! k = Some s → SwapRequest.status s = PENDING →
    references slot s →
    ∃ e, events db !! slot = Some e ∧ Event.status e = SWAP_PENDING.

(** ** A worked scenario *)

Module Scenario.
Definition alice : User.t := User.mk "alice@example.com" "h1" "Alice".
Definition bob : User.t := User.mk "bob@example.com" "h2" "Bob".
Definition carol : User.t := User.mk "carol@example.com" "h3" "Carol".

Definition registered : gmap N User.t :=
  <[1%N := alice]> (<[2%N := bob]> (<[3%N := carol]> ∅)).

Definition env (id : UUID) (t : Z) : Env := mkEnv id t true.

Definition S1 : Event.t := Event.mk "standup" 100 130 SWAPPABLE 1.
Definition S2 : Event.t := Event.mk "review" 200 260 SWAPPABLE 2.

Definition make_swappable : EventUpdate.t :=
  EventUpdate.mk None None None (Some SWAPPABLE).
Definition make_busy : EventUpdate.t :=
  EventUpdate.mk None None None (Some BUSY).

(** Alice (1), Bob (2) and Carol (3) each create a slot (10, 20 and 30)
    and mark it SWAPPABLE. *)
Definition setup : list Operation :=
  [ CreateEvent (env 10 1) 1 (EventCreate.mk "standup" 100 130);
    CreateEvent (env 20 2) 2 (EventCreate.mk "review" 200 260);
    CreateEvent (env 30 3) 3 (EventCreate.mk "retro" 300 330);
    UpdateEvent (env 0 4) 1 10 make_swappable;
    UpdateEvent (env 0 5) 2 20 make_swappable;
    UpdateEvent (env 0 6) 3 30 make_swappable ].

Definition db0 : Database :=
  foldl (λ db op, run op db) (mkDatabase registered ∅ ∅) setup.

Definition accept : SwapResponseAction := mkSwapResponseAction true.
Definition reject : SwapResponseAction := mkSwapResponseAction false.

(** Alice offers 10 for 20: request 100, PENDING. *)
Definition requested :=
  request_swap (env 100 1000) (1%N, alice) (mkSwapRequestCreate 10 20) db0.
Definition db1 : Database := requested.2.

(** Bob accepts, or Bob rejects. *)
Definition accepted_by_bob := respond_to_swap (env 0 2000) 2 100 accept db1.
Definition rejected_by_bob := respond_to_swap (env 0 2000) 2 100 reject db1.

(** Or else, with request 100 still open, Alice makes slot 10 BUSY, and
    Bob rejects after that. *)
Definition withdrawn : Database :=
  (update_event (env 0 1500) 1 10 make_busy db1).2.
Definition rejected_after_withdrawal :=
  respond_to_swap (env 0 2000) 2 100 reject withdrawn.

(** Or else Alice makes slot 10 SWAPPABLE again and offers it to Carol
    for 30. *)
Definition offered_twice : list Operation :=
  [ RequestSwap (env 100 1000) 1 (mkSwapRequestCreate 10 20);
    UpdateEvent (env 0 1500) 1 10 make_swappable;
    RequestSwap (env 101 1600) 1 (mkSwapRequestCreate 10 30) ].

Definition db2 : Database := foldl (λ db op, run op db) db0 offered_twice.
End Scenario.

Definition negotiation_invariant (db : Database) : Prop :=
  pending_slots_locked db ∧ at_most_one_pending db.

(** A PENDING swap request is between its requester, who owns the offered
    slot, and somebody else, who owns the requested slot. *)
Definition pending_sides_owned (db : Database) : Prop :=
  ∀ k s, swap_requests db !! k = Some s → SwapRequest.status s = PENDING →
    ∃ a b,
      events db !! SwapRequest.offered_event_id s = Some a ∧
      events db !! SwapRequest.requested_event_id s = Some b ∧
      Event.owner_id a = SwapRequest.requester_id s ∧
      Event.owner_id b ≠ SwapRequest.requester_id s.

(** ** routers/events.py, the listing *)

Definition own_start_time_asc (a b : N * Event.t) : Prop :=
  (Event.start_time a.2 ≤ Event.start_time b.2)%Z.

#[global] Instance own_start_time_asc_dec a b : Decision (own_start_time_asc a b).
Proof. unfold own_start_time_asc. apply _. Defined.

(** [db.query(Event).where(Event.owner_id == current_user.id)
      .order_by(Event.start_time.asc()).all()] *)
Definition own_rows (current_user : UUID) (db : Database) : list (N * Event.t) :=
  let rows := map_to_list (events db) in
  let rows := filter (λ r, Event.owner_id r.2 = current_user) rows in
  merge_sort own_start_time_asc rows.

Definition list_events (current_user : UUID) (db : Database)
    : Response (list EventResponse.t) * Database :=
  let events := own_rows current_user db in
  (Return ((λ r, EventResponse.model_validate r.1 r.2) <$> events), db).

Definition response_start_time_asc (x y : EventResponse.t) : Prop :=
  (EventResponse.start_time x ≤ EventResponse.start_time y)%Z.

(** ** auth/ and routers/auth.py

    passlib, python-jose and the standard library are outside the
    repository; what the handlers ask of them is gathered here.  A hash is
    salted, so [pwd_context_hash] takes the salt drawn for the call;
    [python_int] is [int()] on a string, [None] when it raises;
    [datetime_add_minutes] is [now + timedelta(minutes=m)], [None] when it
    overflows; the claims handed to [jwt_encode] are the user and the
    expiry. *)
Record Libraries := mkLibraries {
  pwd_context_hash : string → string → string;
  pwd_context_verify : string → string → bool;
  python_int : string → option Z;
  datetime_add_minutes : Z → Z → option Z;
  jwt_encode : UUID → Z → string → string
}.

(** The environment variables read when [auth/jwt_handler.py] is loaded;
    the second one has passed through [os.getenv(_, "60")]. *)
Record Config := mkConfig {
  SECRET_KEY : option string;
  ACCESS_TOKEN_EXPIRE_MINUTES_ENV : string
}.

Module UserCreate.
Record t := mk {
  email : string;
  password : string;
  name : string
}.
End UserCreate.

Module UserLogin.
Record t := mk {
  email : string;
  password : string
}.
End UserLogin.

Definition HTTP_401_UNAUTHORIZED : Z := 401.

Definition _get_access_token_expire_minutes (lib : Libraries) (cfg : Config) : Z :=
  match python_int lib (ACCESS_TOKEN_EXPIRE_MINUTES_ENV cfg) with
  | Some minutes => minutes
  | None => 60
  end.

(** [create_access_token({"user_id": str(user_id)})] at the instant
    [utcnow]; [None] stands for the exception it raises.  [not SECRET_KEY]
    holds of an unset key and of an empty one. *)
Definition create_access_token (lib : Libraries) (cfg : Config) (utcnow : Z)
    (user_id : UUID) : option string :=
  match SECRET_KEY cfg with
  | None | Some EmptyString => None
  | Some key =>
    expire ← datetime_add_minutes lib utcnow
                (_get_access_token_expire_minutes lib cfg);
    Some (jwt_encode lib user_id expire key)
  end.

(** The column [users.email] is declared unique. *)
Definition email_registered (email : string) (db : Database) : Prop :=
  map_Exists (λ _ u, User.email u = email) (users db).

#[global] Instance email_registered_dec email db : Decision (email_registered email db).
Proof. unfold email_registered. apply _. Defined.

(** [signup] answers with the access token.  Of the exceptions of the
    commit and of the refresh it catches [IntegrityError] alone, which the
    store raises for a taken key as for a taken email. *)
Definition signup (lib : Libraries) (cfg : Config) (env : Env) (salt : string)
    (payload : UserCreate.t) (db : Database) : Response string * Database :=
  let password_hash := pwd_context_hash lib salt (UserCreate.password payload) in
  let user := User.mk (UserCreate.email payload) password_hash
                (UserCreate.name payload) in
  match insert_row (uuid4 env) user (users db) with
  | None => (raise HTTP_400_BAD_REQUEST "Email already registered", db)
  | Some us =>
    if decide (email_registered (UserCreate.email payload) db) then
      (raise HTTP_400_BAD_REQUEST "Email already registered", db)
    else
      match commit env (mkDatabase us (events db) (swap_requests db)) with
      | None => (unhandled, db)
      | Some db' =>
        if negb (refresh_ok env) then (unhandled, db')
        else
          match create_access_token lib cfg (now env) (uuid4 env) with
          | None => (unhandled, db')
          | Some token => (Return token, db')
          end
      end
  end.

(** [db.query(User).filter(User.email == email).first()] *)
Definition query_user_by_email (email : string) (db : Database)
    : option (N * User.t) :=
  head (filter (λ r, User.email r.2 = email) (map_to_list (users db))).

Definition login (lib : Libraries) (cfg : Config) (utcnow : Z)
    (payload : UserLogin.t) (db : Database) : Response string * Database :=
  match query_user_by_email (UserLogin.email payload) db with
  | None => (raise HTTP_401_UNAUTHORIZED "Invalid credentials", db)
  | Some (key, user) =>
    if negb (pwd_context_verify lib (UserLogin.password payload)
               (User.password_hash user)) then
      (raise HTTP_401_UNAUTHORIZED "Invalid credentials", db)
    else
      match create_access_token lib cfg utcnow key with
      | None => (unhandled, db)
      | Some token => (Return token, db)
      end
  end.

(** No two users share an email. *)
Definition emails_unique (db : Database) : Prop :=
  ∀ k1 k2 u1 u2,
    users db !! k1 = Some u1 → users db !! k2 = Some u2 →
    User.email u1 = User.email u2 → k1 = k2.

(** Stand-ins for the libraries, to run the handlers on examples. *)
Module Toy.
Definition lib : Libraries :=
  mkLibraries (λ salt password, "hashed:" +:+ password)
    (λ password hashed, bool_decide (hashed = "hashed:" +:+ password))
    (λ _, None)
    (λ utcnow minutes, Some (utcnow + 60 * minutes)%Z)
    (λ user_id expire key, key).

Definition cfg : Config := mkConfig (Some "secret") "60".
Definition no_secret : Config := mkConfig None "60".

Definition dave : UserCreate.t :=
  UserCreate.mk "dave@example.com" "correct horse" "Dave".

(** Dave signs up, with and without a secret key configured. *)
Definition signed_up :=
  signup lib cfg (mkEnv 4 10 true) "s" dave Scenario.db0.
Definition signed_up_without_secret :=
  signup lib no_secret (mkEnv 4 10 true) "s" dave Scenario.db0.
End Toy.

(** * Properties *)

(** ** Reading the handlers backwards *)

Lemma commit_ok_Served env : commit_ok env = true ↔ store env = Served.
Proof. unfold commit_ok. by destruct (store env). Qed.

Lemma commit_Some env session db' :
  commit env session = Some db' ↔ store env ≠ FailsAtCommit ∧ db' = session.
Proof.
  unfold commit. destruct (store env); split; try done.
  - by intros [= <-].
  - by intros [_ ->].
  - by intros [? _].
  - by intros [= <-].
  - by intros [_ ->].
Qed.

(** The three ways in which the store serves a request, with the commit and
    the reads after it evaluated in each. *)
Ltac store_cases env :=
  unfold commit, refresh_ok, commit_ok in *;
  destruct (store env) eqn:?; simpl in *.

Lemma respond_to_swap_Return env u request_id action db resp db' :
  respond_to_swap env u request_id action db = (Return resp, db') →
  ∃ swap offered_event requested_event,
    swap_requests db !! request_id = Some swap ∧
    events db !! SwapRequest.offered_event_id swap = Some offered_event ∧
    events db !! SwapRequest.requested_event_id swap = Some requested_event ∧
    Event.owner_id requested_event = u ∧
    SwapRequest.status swap = PENDING ∧
    commit_ok env = true ∧
    db' = responded env request_id action swap offered_event requested_event db.
Proof.
  unfold respond_to_swap, responded.
  destruct (swap_requests db !! request_id) as [swap|] eqn:Hs; [|done].
  destruct (events db !! SwapRequest.offered_event_id swap) as [o|] eqn:Ho; [|done].
  destruct (events db !! SwapRequest.requested_event_id swap) as [r|] eqn:Hr; [|done].
  destruct (decide (Event.owner_id r ≠ u)) as [|Hu]; [done|].
  destruct (decide (SwapRequest.status swap ≠ PENDING)) as [|Hp]; [done|].
  apply dec_stable in Hu. apply dec_stable in Hp.
  destruct (negb (accepted action)); store_cases env; try done;
    (destruct (users db !! _); [|done];
     destruct (reject_swap _ _ !! _) || destruct (accept_swap _ _ _ _ !! _); [|done];
     destruct (reject_swap _ _ !! _) || destruct (accept_swap _ _ _ _ !! _); [|done];
     intros [= _ <-]; by exists swap, o, r).
Qed.

Lemma revert_status_idemp e : revert_status (revert_status e) = revert_status e.
Proof. unfold revert_status. destruct e as [? ? ? [] ?]; by simpl. Qed.

Lemma lookup_reject_swap swap evs k :
  reject_swap swap evs !! k =
    if decide (references k swap) then revert_status <$> evs !! k else evs !! k.
Proof.
  unfold reject_swap, references.
  destruct (decide (SwapRequest.offered_event_id swap = k)) as [Ho|Ho];
    destruct (decide (SwapRequest.requested_event_id swap = k)) as [Hr|Hr].
  - rewrite decide_True by auto. rewrite Hr, lookup_alter_eq, <- Ho, lookup_alter_eq.
    rewrite <- option_fmap_compose. apply option_fmap_ext. intros e.
    apply revert_status_idemp.
  - rewrite decide_True by auto. rewrite lookup_alter_ne by done.
    by rewrite Ho, lookup_alter_eq.
  - rewrite decide_True by auto. rewrite Hr, lookup_alter_eq.
    by rewrite lookup_alter_ne by done.
  - rewrite decide_False by (intros [|]; done).
    by rewrite !lookup_alter_ne by done.
Qed.

Lemma lookup_accept_swap_offered swap o r evs :
  evs !! SwapRequest.offered_event_id swap = Some o →
  evs !! SwapRequest.requested_event_id swap = Some r →
  accept_swap swap o r evs !! SwapRequest.offered_event_id swap =
    Some (Event.set_status BUSY (Event.set_owner_id (Event.owner_id r) o)).
Proof.
  intros Ho Hr. unfold accept_swap.
  destruct (decide (SwapRequest.requested_event_id swap =
                    SwapRequest.offered_event_id swap)) as [E|E].
  - rewrite E in Hr |- *. rewrite !lookup_alter_eq, Ho. simpl.
    replace r with o by congruence. by destruct o.
  - rewrite lookup_alter_eq, lookup_alter_ne, lookup_alter_eq,
      lookup_alter_ne, Ho by done.
    done.
Qed.

Lemma lookup_accept_swap_requested swap o r evs :
  evs !! SwapRequest.offered_event_id swap = Some o →
  evs !! SwapRequest.requested_event_id swap = Some r →
  accept_swap swap o r evs !! SwapRequest.requested_event_id swap =
    Some (Event.set_status BUSY (Event.set_owner_id (Event.owner_id o) r)).
Proof.
  intros Ho Hr. unfold accept_swap.
  destruct (decide (SwapRequest.offered_event_id swap =
                    SwapRequest.requested_event_id swap)) as [E|E].
  - rewrite E in Ho |- *. rewrite !lookup_alter_eq, Hr. simpl.
    replace o with r by congruence. by destruct r.
  - rewrite lookup_alter_ne, lookup_alter_eq, lookup_alter_ne,
      lookup_alter_eq, Hr by done.
    done.
Qed.

Lemma lookup_accept_swap_other swap o r evs k :
  ¬ references k swap → accept_swap swap o r evs !! k = evs !! k.
Proof.
  unfold references, accept_swap. intros Hk.
  rewrite !lookup_alter_ne; [done | intros E; apply Hk; auto ..].
Qed.

Lemma respond_to_swap_success env u request_id action db r db' :
  respond_to_swap env u request_id action db = (r, db') →
  is_success r →
  ∃ swap offered_event requested_event,
    swap_requests db !! request_id = Some swap ∧
    events db !! SwapRequest.offered_event_id swap = Some offered_event ∧
    events db !! SwapRequest.requested_event_id swap = Some requested_event ∧
    Event.owner_id requested_event = u ∧
    SwapRequest.status swap = PENDING ∧
    commit_ok env = true ∧
    db' = responded env request_id action swap offered_event requested_event db.
Proof.
  destruct r as [resp|e]; [|done]. intros H _.
  by apply respond_to_swap_Return in H.
Qed.

(** ** Responding to a swap request *)

(** C1. Let request [R] be PENDING, with requester [X], offered slot [A]
    (owner [X], SWAP_PENDING) and requested slot [B] (owner [Y],
    SWAP_PENDING).  A successful [respond_to_swap] by [Y] that accepts leaves
    [A] owned by [Y], [B] owned by [X], both BUSY and [R] ACCEPTED; one that
    rejects leaves the owners as they were, both slots SWAPPABLE and [R]
    REJECTED. *)
Theorem respond_accept_swaps_owners_reject_restores_statuses
    env X Y request_id action db R A B r db' :
  swap_requests db !! request_id = Some R →
  SwapRequest.status R = PENDING →
  SwapRequest.requester_id R = X →
  events db !! SwapRequest.offered_event_id R = Some A →
  events db !! SwapRequest.requested_event_id R = Some B →
  Event.owner_id A = X → Event.status A = SWAP_PENDING →
  Event.owner_id B = Y → Event.status B = SWAP_PENDING →
  respond_to_swap env Y request_id action db = (r, db') →
  is_success r →
  ∃ R' A' B',
    swap_requests db' !! request_id = Some R' ∧
    events db' !! SwapRequest.offered_event_id R = Some A' ∧
    events db' !! SwapRequest.requested_event_id R = Some B' ∧
    if accepted action then
      Event.owner_id A' = Y ∧ Event.owner_id B' = X ∧
      Event.status A' = BUSY ∧ Event.status B' = BUSY ∧
      SwapRequest.status R' = ACCEPTED
    else
      Event.owner_id A' = X ∧ Event.owner_id B' = Y ∧
      Event.status A' = SWAPPABLE ∧ Event.status B' = SWAPPABLE ∧
      SwapRequest.status R' = REJECTED.
Proof.
  intros HR Hpend HX HA HB HAo HAs HBo HBs Hrun Hok.
  destruct (respond_to_swap_success _ _ _ _ _ _ _ Hrun Hok)
    as (swap & o & q & Hs & Ho & Hq & _ & _ & _ & ->).
  assert (swap = R) as -> by congruence.
  assert (o = A) as -> by congruence.
  assert (q = B) as -> by congruence.
  unfold responded. destruct (accepted action); simpl.
  - eexists _, _, _. split; [apply lookup_insert_eq|].
    split; [by apply lookup_accept_swap_offered|].
    split; [by apply lookup_accept_swap_requested|].
    by simpl.
  - eexists _, _, _. split; [apply lookup_insert_eq|].
    rewrite !lookup_reject_swap, HA, HB.
    rewrite !decide_True by (unfold references; auto).
    split; [done|]. split; [done|].
    unfold revert_status. rewrite HAs, HBs. by simpl.
Qed.

(** C9. On a successful rejecting [respond_to_swap], a slot of the pair goes
    back to SWAPPABLE exactly when it is SWAP_PENDING at that moment, no
    other field of it changing; a slot of the pair in any other status is
    left as it is. *)
Theorem reject_reverts_only_swap_pending_slots
    env u request_id action db R r db' :
  swap_requests db !! request_id = Some R →
  accepted action = false →
  respond_to_swap env u request_id action db = (r, db') →
  is_success r →
  ∀ k E, references k R → events db !! k = Some E →
    (Event.status E = SWAP_PENDING →
       events db' !! k = Some (Event.set_status SWAPPABLE E)) ∧
    (Event.status E ≠ SWAP_PENDING → events db' !! k = Some E).
Proof.
  intros HR Hrej Hrun Hok k E Hk HE.
  destruct (respond_to_swap_success _ _ _ _ _ _ _ Hrun Hok)
    as (swap & o & q & Hs & _ & _ & _ & _ & _ & ->).
  assert (swap = R) as -> by congruence.
  unfold responded. rewrite Hrej. simpl.
  rewrite lookup_reject_swap, decide_True, HE by done. simpl.
  unfold revert_status. split; intros Hst.
  - by rewrite decide_True.
  - by rewrite decide_False.
Qed.

Lemma respond_accept_witness :
  ∃ R' A' B',
    swap_requests Scenario.accepted_by_bob.2 !! 100%N = Some R' ∧
    events Scenario.accepted_by_bob.2 !! 10%N = Some A' ∧
    events Scenario.accepted_by_bob.2 !! 20%N = Some B' ∧
    Event.owner_id A' = 2%N ∧ Event.owner_id B' = 1%N ∧
    Event.status A' = BUSY ∧ Event.status B' = BUSY ∧
    SwapRequest.status R' = ACCEPTED.
Proof.
  exact (respond_accept_swaps_owners_reject_restores_statuses
           (Scenario.env 0 2000) 1%N 2%N 100%N Scenario.accept Scenario.db1
           (SwapRequest.mk 1 10 20 PENDING 1000 1000)
           (Event.set_status SWAP_PENDING Scenario.S1)
           (Event.set_status SWAP_PENDING Scenario.S2)
           Scenario.accepted_by_bob.1 Scenario.accepted_by_bob.2
           eq_refl eq_refl eq_refl eq_refl eq_refl eq_refl eq_refl eq_refl
           eq_refl eq_refl I).
Defined.

Lemma reject_reverts_witness :
  events Scenario.rejected_after_withdrawal.2 !! 10%N
    = Some (Event.set_status BUSY Scenario.S1) ∧
  events Scenario.rejected_after_withdrawal.2 !! 20%N = Some Scenario.S2.
Proof.
  pose proof (reject_reverts_only_swap_pending_slots
                (Scenario.env 0 2000) 2%N 100%N Scenario.reject Scenario.withdrawn
                (SwapRequest.mk 1 10 20 PENDING 1000 1000)
                Scenario.rejected_after_withdrawal.1
                Scenario.rejected_after_withdrawal.2
                eq_refl eq_refl eq_refl I) as H.
  split.
  - apply (H 10%N (Event.set_status BUSY Scenario.S1) (or_introl eq_refl) eq_refl).
    discriminate.
  - apply (H 20%N (Event.set_status SWAP_PENDING Scenario.S2)
             (or_intror eq_refl) eq_refl).
    reflexivity.
Defined.

(** ** Creating a swap request *)



(** C4, as the code has it.  When both slots exist and the caller owns the
    requested slot [b], [request_swap] fails whatever the statuses and
    changes nothing: with InvalidOperation if the caller also owns the
    offered slot [a], with PermissionDenied if the caller does not. *)
Theorem request_swap_own_slot env u payload db a b r db' :
  events db !! my_slot_id payload = Some a →
  events db !! their_slot_id payload = Some b →
  Event.owner_id b = u.1 →
  request_swap env u payload db = (r, db') →
  db' = db ∧
  (Event.owner_id a = u.1 → InvalidOperation r) ∧
  (Event.owner_id a ≠ u.1 → PermissionDenied r).
Proof.
  intros Ha Hb Hown. unfold request_swap. rewrite Ha, Hb.
  destruct (decide (Event.owner_id a ≠ u.1)) as [Hn|Hy].
  - intros [= <- <-]. split_and!; [done|done|]. intros _. by eexists.
  - rewrite decide_True by done. intros [= <- <-].
    split_and!; [done| |done]. intros _. by eexists.
Qed.

Lemma request_swap_own_slot_witness :
  (request_swap (Scenario.env 100 1000) (1%N, Scenario.alice)
     (mkSwapRequestCreate 10 10) Scenario.db0).2 = Scenario.db0 ∧
  InvalidOperation
    (request_swap (Scenario.env 100 1000) (1%N, Scenario.alice)
       (mkSwapRequestCreate 10 10) Scenario.db0).1.
Proof.
  destruct (request_swap_own_slot (Scenario.env 100 1000) (1%N, Scenario.alice)
              (mkSwapRequestCreate 10 10) Scenario.db0 Scenario.S1 Scenario.S1
              _ _ eq_refl eq_refl eq_refl eq_refl) as (H1 & H2 & _).
  split; [exact H1|exact (H2 eq_refl)].
Defined.

(** C4 as stated fails: Alice (1) asks for her own slot 10 and offers
    slot 20, which is Bob's.  Both slots exist and the owner of the
    requested slot is the caller, yet the answer is 403, not 400. *)
Lemma request_swap_own_slot_counterexample :
  events Scenario.db0 !! 20%N = Some Scenario.S2 ∧
  events Scenario.db0 !! 10%N = Some Scenario.S1 ∧
  Event.owner_id Scenario.S1 = 1%N ∧
  (request_swap (Scenario.env 100 1000) (1%N, Scenario.alice)
     (mkSwapRequestCreate 20 10) Scenario.db0).1
    = raise HTTP_403_FORBIDDEN "You do not own the offered slot" ∧
  ¬ InvalidOperation
      (request_swap (Scenario.env 100 1000) (1%N, Scenario.alice)
         (mkSwapRequestCreate 20 10) Scenario.db0).1.
Proof.
  split_and!; try reflexivity.
  intros [msg H]. vm_compute in H. discriminate H.
Qed.

(** ** Failures *)

Lemma request_swap_failure env u payload db r db' :
  request_swap env u payload db = (r, db') → is_failure r →
  db' = db ∨ store env = FailsAfterCommit.
Proof.
  unfold request_swap, commit, refresh_ok.
  destruct (store env); [| |intros _ _; by right];
    repeat (case_match; try by (intros [= <- <-] ?; left)).
Qed.

Lemma respond_to_swap_failure env u request_id action db r db' :
  respond_to_swap env u request_id action db = (r, db') →
  is_failure r →
  db' = db ∨
  (∃ swap, swap_requests db !! request_id = Some swap ∧
           users db !! SwapRequest.requester_id swap = None) ∨
  store env = FailsAfterCommit.
Proof.
  unfold respond_to_swap.
  destruct (swap_requests db !! request_id) as [swap|] eqn:Hs;
    [|intros [= <- <-]; auto].
  destruct (events db !! SwapRequest.offered_event_id swap) as [o|] eqn:Ho;
    [|intros [= <- <-]; auto].
  destruct (events db !! SwapRequest.requested_event_id swap) as [q|] eqn:Hq;
    [|intros [= <- <-]; auto].
  destruct (decide (Event.owner_id q ≠ u)); [intros [= <- <-]; auto|].
  destruct (decide (SwapRequest.status swap ≠ PENDING)); [intros [= <- <-]; auto|].
  destruct (store env) eqn:Hstore; [| |intros _ _; by right; right];
    unfold commit, refresh_ok; rewrite Hstore;
    [|destruct (negb (accepted action)); intros [= <- <-]; auto].
  destruct (negb (accepted action)); simpl;
    (destruct (users db !! SwapRequest.requester_id swap) eqn:Hu;
       [|intros _ _; right; left; by exists swap]).
  - rewrite !lookup_reject_swap, Ho, Hq. simpl.
    by repeat case_decide; intros [= <- _] [].
  - rewrite (lookup_accept_swap_offered _ _ _ _ Ho Hq).
    rewrite (lookup_accept_swap_requested _ _ _ _ Ho Hq).
    by intros [= <- _] [].
Qed.

(** C5, as the code has it.  Once a swap request is ACCEPTED or REJECTED,
    every further [respond_to_swap] on it, by any user and with either
    answer, fails and changes nothing; when the caller owns the requested
    slot the failure is InvalidOperation. *)
Theorem respond_to_resolved_swap_fails env u request_id action db R r db' :
  swap_requests db !! request_id = Some R →
  SwapRequest.status R = ACCEPTED ∨ SwapRequest.status R = REJECTED →
  respond_to_swap env u request_id action db = (r, db') →
  is_failure r ∧ db' = db ∧
  ∀ A B,
    events db !! SwapRequest.offered_event_id R = Some A →
    events db !! SwapRequest.requested_event_id R = Some B →
    Event.owner_id B = u →
    r = raise HTTP_400_BAD_REQUEST "Swap request already processed".
Proof.
  intros HR Hres. unfold respond_to_swap. rewrite HR.
  assert (SwapRequest.status R ≠ PENDING) as Hnp
    by (destruct Hres as [E|E]; rewrite E; done).
  destruct (events db !! SwapRequest.offered_event_id R) as [o|];
    [|intros [= <- <-]; split_and!; done].
  destruct (events db !! SwapRequest.requested_event_id R) as [q|];
    [|intros [= <- <-]; split_and!; done].
  destruct (decide (Event.owner_id q ≠ u)) as [Hn|Hy].
  - intros [= <- <-]. split_and!; [done..|].
    intros A B _ [= <-] Hu. done.
  - rewrite decide_True by done. intros [= <- <-]. split_and!; done.
Qed.

Lemma respond_to_resolved_swap_witness :
  is_failure (respond_to_swap (Scenario.env 0 3000) 1 100 Scenario.reject
                Scenario.accepted_by_bob.2).1 ∧
  (respond_to_swap (Scenario.env 0 3000) 1 100 Scenario.reject
     Scenario.accepted_by_bob.2).2 = Scenario.accepted_by_bob.2 ∧
  (respond_to_swap (Scenario.env 0 3000) 1 100 Scenario.reject
     Scenario.accepted_by_bob.2).1
    = raise HTTP_400_BAD_REQUEST "Swap request already processed".
Proof.
  destruct (respond_to_resolved_swap_fails (Scenario.env 0 3000) 1%N 100%N
              Scenario.reject Scenario.accepted_by_bob.2
              (SwapRequest.mk 1 10 20 ACCEPTED 1000 2000) _ _
              eq_refl (or_introl eq_refl) eq_refl) as (H1 & H2 & H3).
  split; [exact H1|]. split; [exact H2|].
  exact (H3 (Event.mk "standup" 100 130 BUSY 2) (Event.mk "review" 200 260 BUSY 1)
            eq_refl eq_refl eq_refl).
Defined.

(** C5 as stated fails: request 100 has been rejected by Bob; Carol (3),
    who owns neither slot, responds to it and is answered 403, not 400. *)
Lemma respond_to_resolved_swap_counterexample :
  (SwapRequest.status <$> swap_requests Scenario.rejected_by_bob.2 !! 100%N)
    = Some REJECTED ∧
  (respond_to_swap (Scenario.env 0 3000) 3 100 Scenario.accept
     Scenario.rejected_by_bob.2).1
    = raise HTTP_403_FORBIDDEN "Not authorized to respond to this request" ∧
  ¬ InvalidOperation
      (respond_to_swap (Scenario.env 0 3000) 3 100 Scenario.accept
         Scenario.rejected_by_bob.2).1.
Proof.
  split_and!; try reflexivity.
  intros [msg H]. vm_compute in H. discriminate H.
Qed.

(** Under the foreign keys of the schema, a [request_swap] or a
    [respond_to_swap] that fails at the commit or before it leaves the
    whole database, every slot and every swap request, as it was before
    the call. *)
Lemma failure_up_to_commit_changes_nothing
    env u payload responder request_id action db :
  foreign_keys db → store env ≠ FailsAfterCommit →
  (∀ r db', request_swap env u payload db = (r, db') →
            is_failure r → db' = db) ∧
  (∀ r db', respond_to_swap env responder request_id action db = (r, db') →
            is_failure r → db' = db).
Proof.
  intros [_ Hfk] Hstore. split; intros r db' Hrun Hfail.
  - by destruct (request_swap_failure _ _ _ _ _ _ Hrun Hfail).
  - destruct (respond_to_swap_failure _ _ _ _ _ _ _ Hrun Hfail)
      as [?|[(swap & Hs & Hnone)|?]]; [done| |done].
    destruct (Hfk _ _ Hs) as ([usr Hu] & _). congruence.
Qed.

(** C6 does not hold of the code.  Bob (2) accepts the PENDING request 100
    of [Scenario.db1] and the store fails at [db.refresh(swap)], once the
    commit is through.  [respond_to_swap] has this read inside its [try]:
    the handler rolls back, which takes nothing back any more, and answers
    500, while the request is ACCEPTED and both slots have changed owner.
    In [request_swap] nothing catches a failure of [db.refresh(swap)]:
    Alice (1) is answered 500 while request 100 is stored as PENDING and
    both slots are SWAP_PENDING. *)
Theorem failure_after_commit_keeps_the_update :
  (respond_to_swap (mkRequest 0 2000 FailsAfterCommit) 2 100 Scenario.accept
     Scenario.db1
   = (raise HTTP_500_INTERNAL_SERVER_ERROR "Failed to process swap response",
      Scenario.accepted_by_bob.2) ∧
   InternalError
     (respond_to_swap (mkRequest 0 2000 FailsAfterCommit) 2 100 Scenario.accept
        Scenario.db1).1 ∧
   (SwapRequest.status <$> swap_requests Scenario.db1 !! 100%N) = Some PENDING ∧
   (SwapRequest.status <$> swap_requests Scenario.accepted_by_bob.2 !! 100%N)
     = Some ACCEPTED ∧
   (Event.owner_id <$> events Scenario.db1 !! 10%N) = Some 1%N ∧
   (Event.owner_id <$> events Scenario.accepted_by_bob.2 !! 10%N) = Some 2%N ∧
   (Event.owner_id <$> events Scenario.db1 !! 20%N) = Some 2%N ∧
   (Event.owner_id <$> events Scenario.accepted_by_bob.2 !! 20%N) = Some 1%N) ∧
  (request_swap (mkRequest 100 1000 FailsAfterCommit) (1%N, Scenario.alice)
     (mkSwapRequestCreate 10 20) Scenario.db0
   = (unhandled, Scenario.db1) ∧
   InternalError
     (request_swap (mkRequest 100 1000 FailsAfterCommit) (1%N, Scenario.alice)
        (mkSwapRequestCreate 10 20) Scenario.db0).1 ∧
   swap_requests Scenario.db0 !! 100%N = None ∧
   (SwapRequest.status <$> swap_requests Scenario.db1 !! 100%N) = Some PENDING ∧
   (Event.status <$> events Scenario.db0 !! 10%N) = Some SWAPPABLE ∧
   (Event.status <$> events Scenario.db1 !! 10%N) = Some SWAP_PENDING ∧
   (Event.status <$> events Scenario.db0 !! 20%N) = Some SWAPPABLE ∧
   (Event.status <$> events Scenario.db1 !! 20%N) = Some SWAP_PENDING).
Proof.
  split; split_and!; try (vm_compute; reflexivity); by eexists.
Qed.

(** When the store fails at the commit itself, the caller is answered
    InternalError and the database stays as it was. *)
Lemma respond_to_swap_commit_failure env u request_id action db R A B :
  swap_requests db !! request_id = Some R →
  events db !! SwapRequest.offered_event_id R = Some A →
  events db !! SwapRequest.requested_event_id R = Some B →
  Event.owner_id B = u → SwapRequest.status R = PENDING →
  store env = FailsAtCommit →
  InternalError (respond_to_swap env u request_id action db).1 ∧
  (respond_to_swap env u request_id action db).2 = db.
Proof.
  intros HR HA HB Hu Hp Hfail. unfold respond_to_swap, commit.
  rewrite HR, HA, HB, Hfail.
  rewrite decide_False by (intros ?; done).
  rewrite decide_False by (intros ?; done).
  destruct (negb (accepted action)); simpl; (split; [by eexists|done]).
Qed.

(** After Bob has accepted request 100 the requested slot 20 is Alice's:
    it is Alice who is told that the request is already processed, while
    Bob, answering a second time, is told that he is not authorized. *)
Example replay_after_accept :
  (respond_to_swap (Scenario.env 0 3000) 1 100 Scenario.accept
     Scenario.accepted_by_bob.2).1
    = raise HTTP_400_BAD_REQUEST "Swap request already processed" ∧
  (respond_to_swap (Scenario.env 0 3000) 2 100 Scenario.accept
     Scenario.accepted_by_bob.2).1
    = raise HTTP_403_FORBIDDEN "Not authorized to respond to this request".
Proof. by split. Qed.

(** ** Single-event operations *)

Lemma query_own_event_None event_id u db E :
  events db !! event_id = Some E → Event.owner_id E ≠ u →
  query_own_event event_id u db = None.
Proof.
  intros HE Hn. unfold query_own_event. rewrite HE. simpl.
  by rewrite decide_False.
Qed.

(** C10. For an existing event and an acting user who is not its owner,
    [get_event], [update_event] and [delete_event] all fail with NotFound,
    the very answer given for a missing event, and change nothing. *)
Theorem foreign_event_is_not_found env u event_id payload db E :
  events db !! event_id = Some E →
  Event.owner_id E ≠ u →
  get_event u event_id db = (raise HTTP_404_NOT_FOUND "Event not found", db) ∧
  update_event env u event_id payload db
    = (raise HTTP_404_NOT_FOUND "Event not found", db) ∧
  delete_event env u event_id db
    = (raise HTTP_404_NOT_FOUND "Event not found", db) ∧
  NotFound (get_event u event_id db).1 ∧
  NotFound (update_event env u event_id payload db).1 ∧
  NotFound (delete_event env u event_id db).1 ∧
  ¬ PermissionDenied (get_event u event_id db).1 ∧
  ¬ PermissionDenied (update_event env u event_id payload db).1 ∧
  ¬ PermissionDenied (delete_event env u event_id db).1 ∧
  ∀ missing, events db !! missing = None →
    (get_event u missing db).1 = (get_event u event_id db).1 ∧
    (update_event env u missing payload db).1
      = (update_event env u event_id payload db).1 ∧
    (delete_event env u missing db).1 = (delete_event env u event_id db).1.
Proof.
  intros HE Hn.
  unfold get_event, update_event, delete_event.
  rewrite (query_own_event_None _ _ _ _ HE Hn). simpl.
  split_and!; try done; try (by eexists).
  1-3: by intros [msg [=]].
  intros missing Hm. unfold query_own_event. by rewrite Hm.
Qed.

Lemma foreign_event_is_not_found_witness :
  get_event 2 10 Scenario.db0
    = (raise HTTP_404_NOT_FOUND "Event not found", Scenario.db0) ∧
  update_event (Scenario.env 0 50) 2 10
      (EventUpdate.mk (Some "mine now") None None (Some BUSY)) Scenario.db0
    = (raise HTTP_404_NOT_FOUND "Event not found", Scenario.db0) ∧
  delete_event (Scenario.env 0 50) 2 10 Scenario.db0
    = (raise HTTP_404_NOT_FOUND "Event not found", Scenario.db0).
Proof.
  destruct (foreign_event_is_not_found (Scenario.env 0 50) 2%N 10%N
              (EventUpdate.mk (Some "mine now") None None (Some BUSY))
              Scenario.db0 Scenario.S1 eq_refl ltac:(done))
    as (H1 & H2 & H3 & _).
  split; [exact H1|]. split; [exact H2|exact H3].
Defined.

(** ** Listings *)

#[local] Instance start_time_asc_total : Total start_time_asc.
Proof. intros a b. unfold start_time_asc. lia. Qed.

#[local] Instance start_time_asc_trans : Transitive start_time_asc.
Proof. intros a b c. unfold start_time_asc. lia. Qed.

#[local] Instance created_at_desc_total : Total created_at_desc.
Proof. intros a b. unfold created_at_desc. lia. Qed.

#[local] Instance created_at_desc_trans : Transitive created_at_desc.
Proof. intros a b c. unfold created_at_desc. lia. Qed.

(** A join keeps at most one row per key of the table it starts from. *)
Lemma omap_keys_sublist {A B} (f : N * A → option B) (g : B → N) l :
  (∀ r x, f r = Some x → g x = r.1) →
  g <$> omap f l `sublist_of` l.*1.
Proof.
  intros Hkey. induction l as [|r l IH]; [done|]. csimpl.
  destruct (f r) as [x|] eqn:Hf; csimpl.
  - rewrite (Hkey _ _ Hf). by constructor.
  - by constructor.
Qed.

Lemma join_owner_Some db r x :
  join_owner db r = Some x ↔
  ∃ owner, users db !! Event.owner_id r.2 = Some owner ∧
           x = (r.1, r.2, User.name owner).
Proof.
  unfold join_owner.
  destruct (users db !! Event.owner_id r.2) as [owner|]; simpl; split.
  - intros [= <-]. by exists owner.
  - by intros (? & [= <-] & ->).
  - done.
  - by intros (? & ? & _).
Qed.

Lemma elem_of_swappable_rows u db k e n :
  (k, e, n) ∈ swappable_rows u db ↔
  events db !! k = Some e ∧ Event.status e = SWAPPABLE ∧ Event.owner_id e ≠ u ∧
  ∃ owner, users db !! Event.owner_id e = Some owner ∧ n = User.name owner.
Proof.
  unfold swappable_rows. rewrite merge_sort_Permutation.
  rewrite !list_elem_of_filter, list_elem_of_omap. simpl. split.
  - intros (Hu & Hs & [k' e'] & Hin & Hj).
    apply join_owner_Some in Hj as (owner & Ho & [= -> -> ->]).
    apply elem_of_map_to_list in Hin. simpl in Ho.
    split_and!; [done..|]. exists owner. by split.
  - intros (Hin & Hs & Hu & owner & Ho & ->). split_and!; [done..|].
    exists (k, e). split; [by apply elem_of_map_to_list|].
    apply join_owner_Some. by exists owner.
Qed.

Lemma swappable_rows_keys_NoDup u db :
  NoDup ((λ r, r.1.1) <$> swappable_rows u db).
Proof.
  unfold swappable_rows. rewrite merge_sort_Permutation.
  eapply sublist_NoDup; [apply (NoDup_fst_map_to_list (events db))|].
  etrans; [|apply (omap_keys_sublist (join_owner db) (λ r, r.1.1))].
  - apply fmap_sublist. etrans; apply sublist_filter.
  - intros r x Hj. by apply join_owner_Some in Hj as (? & _ & ->).
Qed.

(** C7. Under the foreign keys of the schema, [list_swappable_slots] for
    user [u] returns, without changing the database, exactly the slots that
    are SWAPPABLE and not owned by [u]: each such slot is listed, once, with
    the display name of its owner, nothing else is listed, and the list is
    in ascending order of start instant. *)
Theorem list_swappable_slots_exact_and_sorted u db :
  foreign_keys db →
  ∃ result,
    list_swappable_slots u db = (Return result, db) ∧
    (∀ k e, events db !! k = Some e → Event.status e = SWAPPABLE →
            Event.owner_id e ≠ u →
       ∃ owner, users db !! Event.owner_id e = Some owner ∧
         SwappableEventResponse.mk (EventResponse.model_validate k e)
           (User.name owner) ∈ result) ∧
    (∀ x, x ∈ result →
       ∃ k e owner,
         events db !! k = Some e ∧ Event.status e = SWAPPABLE ∧
         Event.owner_id e ≠ u ∧ users db !! Event.owner_id e = Some owner ∧
         x = SwappableEventResponse.mk (EventResponse.model_validate k e)
               (User.name owner)) ∧
    NoDup ((λ x, EventResponse.id (SwappableEventResponse.event x)) <$> result) ∧
    StronglySorted by_start_time_asc result.
Proof.
  intros [Hfk _]. eexists. split; [reflexivity|]. split_and!.
  - intros k e He Hs Hu. destruct (Hfk _ _ He) as [owner Ho].
    exists owner. split; [done|].
    apply (list_elem_of_fmap_2' _ _ (k, e, User.name owner)); [|done].
    apply elem_of_swappable_rows. split_and!; [done..|]. by exists owner.
  - intros x Hx. apply list_elem_of_fmap in Hx as ([[k e] n] & -> & Hin).
    apply elem_of_swappable_rows in Hin as (He & Hs & Hu & owner & Ho & ->).
    by exists k, e, owner.
  - rewrite <- list_fmap_compose. apply swappable_rows_keys_NoDup.
  - eapply StronglySorted_fmap; [|apply StronglySorted_merge_sort; apply _].
    by intros a b.
Qed.

Lemma list_swappable_slots_witness :
  ∃ result,
    list_swappable_slots 3 Scenario.db0 = (Return result, Scenario.db0) ∧
    (∀ k e, events Scenario.db0 !! k = Some e → Event.status e = SWAPPABLE →
            Event.owner_id e ≠ 3%N →
       ∃ owner, users Scenario.db0 !! Event.owner_id e = Some owner ∧
         SwappableEventResponse.mk (EventResponse.model_validate k e)
           (User.name owner) ∈ result) ∧
    (∀ x, x ∈ result →
       ∃ k e owner,
         events Scenario.db0 !! k = Some e ∧ Event.status e = SWAPPABLE ∧
         Event.owner_id e ≠ 3%N ∧
         users Scenario.db0 !! Event.owner_id e = Some owner ∧
         x = SwappableEventResponse.mk (EventResponse.model_validate k e)
               (User.name owner)) ∧
    NoDup ((λ x, EventResponse.id (SwappableEventResponse.event x)) <$> result) ∧
    StronglySorted by_start_time_asc result.
Proof.
  apply (list_swappable_slots_exact_and_sorted 3%N Scenario.db0).
  apply (bool_decide_unpack _). vm_compute. exact I.
Defined.

Lemma join_details_Some db r x :
  join_details db r = Some x ↔
  ∃ o q usr,
    events db !! SwapRequest.offered_event_id r.2 = Some o ∧
    events db !! SwapRequest.requested_event_id r.2 = Some q ∧
    users db !! SwapRequest.requester_id r.2 = Some usr ∧
    x = (r.1, r.2, o, q, usr).
Proof.
  unfold join_details.
  destruct (events db !! SwapRequest.offered_event_id r.2) as [o|]; simpl;
    [|split; [done|by intros (? & ? & ? & ? & _)]].
  destruct (events db !! SwapRequest.requested_event_id r.2) as [q|]; simpl;
    [|split; [done|by intros (? & ? & ? & _ & ? & _)]].
  destruct (users db !! SwapRequest.requester_id r.2) as [usr|]; simpl;
    [|split; [done|by intros (? & ? & ? & _ & _ & ? & _)]].
  split.
  - intros [= <-]. by exists o, q, usr.
  - by intros (? & ? & ? & [= <-] & [= <-] & [= <-] & ->).
Qed.

(** The rows of a swap request joined with its details, whatever the WHERE
    clause [P] and however the result is ordered. *)
Lemma elem_of_joined_rows db
    (P : N * SwapRequest.t * Event.t * Event.t * User.t → Prop)
    `{!∀ r, Decision (P r)} k s o q usr :
  (k, s, o, q, usr)
    ∈ merge_sort created_at_desc
        (filter P (omap (join_details db) (map_to_list (swap_requests db)))) ↔
  swap_requests db !! k = Some s ∧
  events db !! SwapRequest.offered_event_id s = Some o ∧
  events db !! SwapRequest.requested_event_id s = Some q ∧
  users db !! SwapRequest.requester_id s = Some usr ∧
  P (k, s, o, q, usr).
Proof.
  rewrite merge_sort_Permutation, list_elem_of_filter, list_elem_of_omap. split.
  - intros (HP & [k' s'] & Hin & Hj).
    apply join_details_Some in Hj as (o' & q' & usr' & Ho & Hq & Hu & E).
    simpl in *. injection E as -> -> -> -> ->.
    by apply elem_of_map_to_list in Hin.
  - intros (Hs & Ho & Hq & Hu & HP). split; [done|].
    exists (k, s). split; [by apply elem_of_map_to_list|].
    apply join_details_Some. by exists o, q, usr.
Qed.

Lemma joined_rows_keys_NoDup db
    (P : N * SwapRequest.t * Event.t * Event.t * User.t → Prop)
    `{!∀ r, Decision (P r)} :
  NoDup ((λ r, r.1.1.1.1) <$>
           merge_sort created_at_desc
             (filter P (omap (join_details db) (map_to_list (swap_requests db))))).
Proof.
  rewrite merge_sort_Permutation.
  eapply sublist_NoDup; [apply (NoDup_fst_map_to_list (swap_requests db))|].
  etrans; [|apply (omap_keys_sublist (join_details db) (λ r, r.1.1.1.1))].
  - apply fmap_sublist, sublist_filter.
  - intros r x Hj. by apply join_details_Some in Hj as (? & ? & ? & _ & _ & _ & ->).
Qed.

Lemma filter_filter_and {A} (P Q : A → Prop)
    `{!∀ x, Decision (P x)} `{!∀ x, Decision (Q x)} (l : list A) :
  filter Q (filter P l) = filter (λ x, P x ∧ Q x) l.
Proof.
  induction l as [|x l IH]; [done|].
  rewrite !filter_cons. destruct (decide (P x)) as [HP|HP].
  - rewrite filter_cons. destruct (decide (Q x)) as [HQ|HQ].
    + rewrite decide_True by done. by rewrite IH.
    + rewrite decide_False by (by intros [_ ?]). done.
  - rewrite decide_False by (by intros [? _]). done.
Qed.

Lemma swap_responses_sorted rows :
  StronglySorted created_at_desc rows →
  StronglySorted by_created_at_desc (swap_response <$> rows).
Proof.
  apply StronglySorted_fmap. by intros [[[[??]?]?]?] [[[[??]?]?]?].
Qed.

Lemma elem_of_incoming_rows u db k s o q usr :
  (k, s, o, q, usr) ∈ incoming_rows u db ↔
  swap_requests db !! k = Some s ∧
  events db !! SwapRequest.offered_event_id s = Some o ∧
  events db !! SwapRequest.requested_event_id s = Some q ∧
  users db !! SwapRequest.requester_id s = Some usr ∧
  SwapRequest.status s = PENDING ∧ Event.owner_id q = u.
Proof.
  unfold incoming_rows. rewrite filter_filter_and.
  by rewrite elem_of_joined_rows.
Qed.

Lemma elem_of_outgoing_rows u db k s o q usr :
  (k, s, o, q, usr) ∈ outgoing_rows u db ↔
  swap_requests db !! k = Some s ∧
  events db !! SwapRequest.offered_event_id s = Some o ∧
  events db !! SwapRequest.requested_event_id s = Some q ∧
  users db !! SwapRequest.requester_id s = Some usr ∧
  SwapRequest.requester_id s = u.
Proof. unfold outgoing_rows. by rewrite elem_of_joined_rows. Qed.

Lemma swap_response_id r : SwapRequestResponse.id (swap_response r) = r.1.1.1.1.
Proof. by destruct r as [[[[??]?]?]?]. Qed.

(** C8. Under the foreign keys of the schema, and without changing the
    database: [list_incoming_requests] for user [u] returns exactly the swap
    requests that are PENDING and whose requested slot is owned by [u];
    [list_outgoing_requests] returns exactly the swap requests whose
    requester is [u], in any status; each request is listed once, and both
    lists are in descending order of creation timestamp. *)
Theorem list_incoming_outgoing_exact_and_sorted u db :
  foreign_keys db →
  ∃ incoming outgoing,
    list_incoming_requests u db = (Return incoming, db) ∧
    list_outgoing_requests u db = (Return outgoing, db) ∧
    (∀ k s q, swap_requests db !! k = Some s →
        events db !! SwapRequest.requested_event_id s = Some q →
        SwapRequest.status s = PENDING → Event.owner_id q = u →
      ∃ o usr, events db !! SwapRequest.offered_event_id s = Some o ∧
               users db !! SwapRequest.requester_id s = Some usr ∧
               swap_response (k, s, o, q, usr) ∈ incoming) ∧
    (∀ x, x ∈ incoming →
      ∃ k s o q usr,
        swap_requests db !! k = Some s ∧
        events db !! SwapRequest.offered_event_id s = Some o ∧
        events db !! SwapRequest.requested_event_id s = Some q ∧
        users db !! SwapRequest.requester_id s = Some usr ∧
        SwapRequest.status s = PENDING ∧ Event.owner_id q = u ∧
        x = swap_response (k, s, o, q, usr)) ∧
    (∀ k s, swap_requests db !! k = Some s → SwapRequest.requester_id s = u →
      ∃ o q usr, events db !! SwapRequest.offered_event_id s = Some o ∧
                 events db !! SwapRequest.requested_event_id s = Some q ∧
                 users db !! SwapRequest.requester_id s = Some usr ∧
                 swap_response (k, s, o, q, usr) ∈ outgoing) ∧
    (∀ x, x ∈ outgoing →
      ∃ k s o q usr,
        swap_requests db !! k = Some s ∧
        events db !! SwapRequest.offered_event_id s = Some o ∧
        events db !! SwapRequest.requested_event_id s = Some q ∧
        users db !! SwapRequest.requester_id s = Some usr ∧
        SwapRequest.requester_id s = u ∧
        x = swap_response (k, s, o, q, usr)) ∧
    NoDup (SwapRequestResponse.id <$> incoming) ∧
    NoDup (SwapRequestResponse.id <$> outgoing) ∧
    StronglySorted by_created_at_desc incoming ∧
    StronglySorted by_created_at_desc outgoing.
Proof.
  intros [_ Hfk]. eexists _, _.
  split; [reflexivity|]. split; [reflexivity|]. split_and!.
  - intros k s q Hs Hq Hp Hu.
    destruct (Hfk _ _ Hs) as ([usr Husr] & [o Ho] & _).
    exists o, usr. split_and!; [done..|].
    apply list_elem_of_fmap_2, elem_of_incoming_rows. by split_and!.
  - intros x Hx. apply list_elem_of_fmap in Hx as ([[[[k s] o] q] usr] & -> & Hin).
    apply elem_of_incoming_rows in Hin as (? & ? & ? & ? & ? & ?).
    by exists k, s, o, q, usr.
  - intros k s Hs Hu.
    destruct (Hfk _ _ Hs) as ([usr Husr] & [o Ho] & [q Hq]).
    exists o, q, usr. split_and!; [done..|].
    apply list_elem_of_fmap_2, elem_of_outgoing_rows. by split_and!.
  - intros x Hx. apply list_elem_of_fmap in Hx as ([[[[k s] o] q] usr] & -> & Hin).
    apply elem_of_outgoing_rows in Hin as (? & ? & ? & ? & ?).
    by exists k, s, o, q, usr.
  - rewrite <- list_fmap_compose.
    rewrite (list_fmap_ext _ (λ r, r.1.1.1.1) _ (λ _ r _, swap_response_id r)).
    unfold incoming_rows. rewrite filter_filter_and. apply joined_rows_keys_NoDup.
  - rewrite <- list_fmap_compose.
    rewrite (list_fmap_ext _ (λ r, r.1.1.1.1) _ (λ _ r _, swap_response_id r)).
    apply joined_rows_keys_NoDup.
  - apply swap_responses_sorted, StronglySorted_merge_sort; apply _.
  - apply swap_responses_sorted, StronglySorted_merge_sort; apply _.
Qed.

Lemma list_incoming_outgoing_witness :
  ∃ incoming outgoing,
    list_incoming_requests 2 Scenario.db1 = (Return incoming, Scenario.db1) ∧
    list_outgoing_requests 2 Scenario.db1 = (Return outgoing, Scenario.db1) ∧
    NoDup (SwapRequestResponse.id <$> incoming) ∧
    NoDup (SwapRequestResponse.id <$> outgoing) ∧
    StronglySorted by_created_at_desc incoming ∧
    StronglySorted by_created_at_desc outgoing.
Proof.
  assert (foreign_keys Scenario.db1) as Hfk
    by (apply (bool_decide_unpack _); vm_compute; exact I).
  destruct (list_incoming_outgoing_exact_and_sorted 2%N Scenario.db1 Hfk)
    as (incoming & outgoing & Hin & Hout & _ & _ & _ & _ & H).
  exists incoming, outgoing. split; [exact Hin|]. split; [exact Hout|exact H].
Defined.

(** Bob's incoming list holds request 100; his outgoing list is empty. *)
Example incoming_of_bob :
  match (list_incoming_requests 2 Scenario.db1).1,
        (list_outgoing_requests 2 Scenario.db1).1 with
  | Return incoming, Return outgoing =>
    SwapRequestResponse.id <$> incoming = [100%N] ∧ outgoing = []
  | _, _ => False
  end.
Proof. vm_compute. by split. Qed.

(** ** What each operation does to the database *)

Lemma get_current_user_Some u db cu :
  get_current_user u db = Some cu →
  ∃ usr, users db !! u = Some usr ∧ cu = (u, usr).
Proof.
  unfold get_current_user. destruct (users db !! u) as [usr|]; [|done].
  intros [= <-]. by exists usr.
Qed.

Lemma query_own_event_Some event_id u db e :
  query_own_event event_id u db = Some e →
  events db !! event_id = Some e ∧ Event.owner_id e = u.
Proof.
  unfold query_own_event. destruct (events db !! event_id) as [e'|]; [|done].
  simpl. destruct (decide (Event.owner_id e' = u)); [|done].
  by intros [= <-].
Qed.

Lemma apply_update_owner_id payload e :
  Event.owner_id (apply_update payload e) = Event.owner_id e.
Proof.
  unfold apply_update.
  by destruct (EventUpdate.title payload), (EventUpdate.start_time payload),
    (EventUpdate.end_time payload), (EventUpdate.status payload).
Qed.

Lemma apply_update_status payload e :
  EventUpdate.status payload = None →
  Event.status (apply_update payload e) = Event.status e.
Proof.
  unfold apply_update. intros ->.
  by destruct (EventUpdate.title payload), (EventUpdate.start_time payload), (EventUpdate.end_time payload).
Qed.

Lemma create_event_cases env u payload db :
  (create_event env u payload db).2 = db ∨
  (events db !! uuid4 env = None ∧
   (create_event env u payload db).2 =
     with_events
       (<[uuid4 env := Event.mk (EventCreate.title payload) (EventCreate.start_time payload)
                         (EventCreate.end_time payload) BUSY u]> (events db)) db).
Proof.
  unfold create_event, insert_row, commit, refresh_ok.
  destruct (events db !! uuid4 env); simpl; [by left|].
  destruct (store env); simpl; [by right|by left|by right].
Qed.

Lemma update_event_cases env u event_id payload db :
  (update_event env u event_id payload db).2 = db ∨
  ∃ e, events db !! event_id = Some e ∧ Event.owner_id e = u ∧
       (update_event env u event_id payload db).2 =
         with_events (<[event_id := apply_update payload e]> (events db)) db.
Proof.
  unfold update_event, commit, refresh_ok.
  destruct (query_own_event event_id u db) as [e|] eqn:Hq; [|by left].
  apply query_own_event_Some in Hq as [He Hu].
  destruct (store env); simpl; [|by left|]; right; by exists e.
Qed.

Lemma delete_event_cases env u event_id db :
  (delete_event env u event_id db).2 = db ∨
  (¬ referenced event_id db ∧
   (delete_event env u event_id db).2 =
     with_events (delete event_id (events db)) db).
Proof.
  unfold delete_event, commit.
  destruct (query_own_event event_id u db); [|by left].
  destruct (decide (referenced event_id db)); [by left|].
  destruct (store env); simpl; [by right|by left|by right].
Qed.

Lemma request_swap_cases env cu payload db :
  (request_swap env cu payload db).2 = db ∨
  ∃ a b,
    events db !! my_slot_id payload = Some a ∧
    events db !! their_slot_id payload = Some b ∧
    my_slot_id payload ≠ their_slot_id payload ∧
    Event.status a = SWAPPABLE ∧ Event.status b = SWAPPABLE ∧
    swap_requests db !! uuid4 env = None ∧
    (request_swap env cu payload db).2 =
      mkDatabase (users db)
        (alter (Event.set_status SWAP_PENDING) (their_slot_id payload)
           (alter (Event.set_status SWAP_PENDING) (my_slot_id payload) (events db)))
        (<[uuid4 env := SwapRequest.mk cu.1 (my_slot_id payload)
                          (their_slot_id payload) PENDING (now env) (now env)]>
           (swap_requests db)).
Proof.
  unfold request_swap, insert_row, commit, refresh_ok.
  destruct (events db !! my_slot_id payload) as [a|] eqn:Ha; [|by left].
  destruct (events db !! their_slot_id payload) as [b|] eqn:Hb; [|by left].
  destruct (decide (Event.owner_id a ≠ cu.1)) as [|Hown]; [by left|].
  destruct (decide (Event.owner_id b = cu.1)) as [|Hother]; [by left|].
  destruct (decide (Event.status a ≠ SWAPPABLE)) as [|Hsa]; [by left|].
  destruct (decide (Event.status b ≠ SWAPPABLE)) as [|Hsb]; [by left|].
  apply dec_stable in Hown, Hsa, Hsb.
  destruct (swap_requests db !! uuid4 env) eqn:Hfresh; simpl; [by left|].
  assert (my_slot_id payload ≠ their_slot_id payload)
    by (intros E; rewrite E in Ha; congruence).
  destruct (store env); simpl; [|by left|];
    right; exists a, b; by split_and!.
Qed.

(** Whatever it answers, [respond_to_swap] either leaves the database alone
    or commits the response to a PENDING request. *)
Lemma respond_to_swap_state env u request_id action db :
  (respond_to_swap env u request_id action db).2 = db ∨
  ∃ swap offered_event requested_event,
    swap_requests db !! request_id = Some swap ∧
    events db !! SwapRequest.offered_event_id swap = Some offered_event ∧
    events db !! SwapRequest.requested_event_id swap = Some requested_event ∧
    SwapRequest.status swap = PENDING ∧
    (respond_to_swap env u request_id action db).2 =
      responded env request_id action swap offered_event requested_event db.
Proof.
  unfold respond_to_swap, responded, commit, refresh_ok.
  destruct (swap_requests db !! request_id) as [swap|] eqn:Hs; [|by left].
  destruct (events db !! SwapRequest.offered_event_id swap) as [o|] eqn:Ho;
    [|by left].
  destruct (events db !! SwapRequest.requested_event_id swap) as [q|] eqn:Hq;
    [|by left].
  destruct (decide (Event.owner_id q ≠ u)); [by left|].
  destruct (decide (SwapRequest.status swap ≠ PENDING)) as [|Hp]; [by left|].
  apply dec_stable in Hp.
  destruct (store env); [|destruct (negb (accepted action)); by left|];
    right; exists swap, o, q; (split_and!; try done);
    destruct (negb (accepted action)); simpl;
    by repeat (case_match; simpl).
Qed.

Lemma respond_to_swap_cases env u request_id action db :
  foreign_keys db →
  (respond_to_swap env u request_id action db).2 = db ∨
  ∃ swap offered_event requested_event,
    swap_requests db !! request_id = Some swap ∧
    events db !! SwapRequest.offered_event_id swap = Some offered_event ∧
    events db !! SwapRequest.requested_event_id swap = Some requested_event ∧
    SwapRequest.status swap = PENDING ∧
    (respond_to_swap env u request_id action db).2 =
      responded env request_id action swap offered_event requested_event db.
Proof.
  intros _. apply respond_to_swap_state.
Qed.

(** ** The foreign keys hold in every reachable state *)

Lemma owners_exist_alter us f k evs :
  (∀ e, Event.owner_id (f e) = Event.owner_id e) →
  owners_exist us evs → owners_exist us (alter f k evs).
Proof.
  intros Hf H j e'. rewrite lookup_alter_Some.
  intros [(_ & e & He & ->)|[_ He]]; [rewrite Hf|]; by eapply H.
Qed.

Lemma swap_references_exist_mono us evs evs' sws :
  (∀ k, is_Some (evs !! k) → is_Some (evs' !! k)) →
  swap_references_exist us evs sws → swap_references_exist us evs' sws.
Proof.
  intros Hkeys H k s Hs. destruct (H k s Hs) as (? & ? & ?). auto.
Qed.

Lemma foreign_keys_create_event env u payload db :
  is_Some (users db !! u) → foreign_keys db →
  foreign_keys (create_event env u payload db).2.
Proof.
  intros Hu [Hown Href].
  destruct (create_event_cases env u payload db) as [->|[Hfresh ->]]; [done|].
  split; simpl.
  - by apply map_Forall_insert_2.
  - eapply swap_references_exist_mono; [|done].
    intros k. rewrite lookup_insert_is_Some'. auto.
Qed.

Lemma foreign_keys_update_event env u event_id payload db :
  foreign_keys db → foreign_keys (update_event env u event_id payload db).2.
Proof.
  intros [Hown Href].
  destruct (update_event_cases env u event_id payload db)
    as [->|(e & He & _ & ->)]; [done|].
  split; simpl.
  - apply map_Forall_insert_2; [|done].
    rewrite apply_update_owner_id. by eapply Hown.
  - eapply swap_references_exist_mono; [|done].
    intros k. rewrite lookup_insert_is_Some'. auto.
Qed.

Lemma foreign_keys_delete_event env u event_id db :
  foreign_keys db → foreign_keys (delete_event env u event_id db).2.
Proof.
  intros [Hown Href].
  destruct (delete_event_cases env u event_id db) as [->|[Hfree ->]]; [done|].
  split; simpl.
  - by apply map_Forall_delete.
  - intros k s Hs. destruct (Href k s Hs) as (? & ? & ?).
    assert (¬ references event_id s) as Hn
      by (intros ?; apply Hfree; by exists k, s).
    unfold references in Hn.
    rewrite !lookup_delete_ne by (intros ?; apply Hn; auto). done.
Qed.

Lemma foreign_keys_request_swap env cu payload db :
  is_Some (users db !! cu.1) → foreign_keys db →
  foreign_keys (request_swap env cu payload db).2.
Proof.
  intros Hu [Hown Href].
  destruct (request_swap_cases env cu payload db)
    as [->|(a & b & Ha & Hb & _ & _ & _ & Hfresh & ->)]; [done|].
  split; simpl.
  - do 2 (apply owners_exist_alter; [done|]). done.
  - apply map_Forall_insert_2.
    + simpl. by rewrite !lookup_alter_is_Some, Ha, Hb.
    + eapply swap_references_exist_mono; [|done].
      intros k. by rewrite !lookup_alter_is_Some.
Qed.

Lemma revert_status_owner_id e :
  Event.owner_id (revert_status e) = Event.owner_id e.
Proof. unfold revert_status. by case_decide. Qed.

Lemma foreign_keys_respond_to_swap env u request_id action db :
  foreign_keys db → foreign_keys (respond_to_swap env u request_id action db).2.
Proof.
  intros Hfk.
  destruct (respond_to_swap_cases env u request_id action db Hfk)
    as [->|(swap & o & q & Hs & Ho & Hq & _ & ->)]; [done|].
  destruct Hfk as [Hown Href]. unfold responded.
  destruct (negb (accepted action)); split; simpl.
  - unfold reject_swap.
    do 2 (apply owners_exist_alter; [apply revert_status_owner_id|]). done.
  - destruct (Href _ _ Hs) as (Hr & _ & _).
    apply map_Forall_insert_2; simpl.
    + unfold reject_swap. by rewrite !lookup_alter_is_Some, Ho, Hq.
    + eapply swap_references_exist_mono; [|done].
      intros k. unfold reject_swap. by rewrite !lookup_alter_is_Some.
  - intros k e'. unfold accept_swap. rewrite !lookup_alter_Some.
    pose proof (Hown _ _ Ho). pose proof (Hown _ _ Hq).
    intros Hcase.
    repeat match goal with
    | H : _ ∨ _ |- _ => destruct H
    | H : _ ∧ _ |- _ => destruct H
    | H : ∃ _, _ |- _ => destruct H
    | H : alter _ _ _ !! _ = Some _ |- _ => rewrite lookup_alter_Some in H
    end; subst; simpl; try done; by eapply Hown.
  - destruct (Href _ _ Hs) as (Hr & _ & _).
    apply map_Forall_insert_2; simpl.
    + unfold accept_swap. by rewrite !lookup_alter_is_Some, Ho, Hq.
    + eapply swap_references_exist_mono; [|done].
      intros k. unfold accept_swap. by rewrite !lookup_alter_is_Some.
Qed.

Lemma foreign_keys_run op db : foreign_keys db → foreign_keys (run op db).
Proof.
  intros Hfk. unfold run.
  destruct (get_current_user (token_user_of op) db) as [cu|] eqn:Hcu; [|done].
  apply get_current_user_Some in Hcu as (usr & Hu & ->).
  destruct op; simpl in *.
  - by apply foreign_keys_create_event.
  - by apply foreign_keys_update_event.
  - by apply foreign_keys_delete_event.
  - by apply foreign_keys_request_swap.
  - by apply foreign_keys_respond_to_swap.
Qed.

Lemma reachable_by_foreign_keys allowed db :
  reachable_by allowed db → foreign_keys db.
Proof.
  induction 1 as [us|op db _ IH _].
  - split; simpl; apply map_Forall_empty.
  - by apply foreign_keys_run.
Qed.

(** ** The lock holds as long as no locked slot is edited *)

(** Operations on events only: enough that a locked slot which a PENDING
    request points at stays in place and locked. *)
Lemma negotiation_invariant_with_events db evs' :
  (∀ slot e k s,
     events db !! slot = Some e → Event.status e = SWAP_PENDING →
     swap_requests db !! k = Some s → SwapRequest.status s = PENDING →
     references slot s →
     ∃ e', evs' !! slot = Some e' ∧ Event.status e' = SWAP_PENDING) →
  negotiation_invariant db → negotiation_invariant (with_events evs' db).
Proof.
  intros Hkeep [Hlock Hone]. split; [|done].
  intros k s slot Hs Hp Href. simpl in *.
  destruct (Hlock _ _ _ Hs Hp Href) as (e & He & Hst). eauto.
Qed.

Lemma negotiation_invariant_create_event env u payload db :
  negotiation_invariant db →
  negotiation_invariant (create_event env u payload db).2.
Proof.
  intros Hinv.
  destruct (create_event_cases env u payload db) as [->|[Hfresh ->]]; [done|].
  apply negotiation_invariant_with_events; [|done].
  intros slot e k s He Hst _ _ _. exists e. split; [|done].
  rewrite lookup_insert_ne; [done|]. intros <-. congruence.
Qed.

Lemma negotiation_invariant_update_event env u event_id payload db :
  ¬ edits_locked_slot (UpdateEvent env u event_id payload) db →
  negotiation_invariant db →
  negotiation_invariant (update_event env u event_id payload db).2.
Proof.
  intros Hguard Hinv.
  destruct (update_event_cases env u event_id payload db)
    as [->|(e0 & He0 & _ & ->)]; [done|].
  apply negotiation_invariant_with_events; [|done].
  intros slot e k s He Hst _ _ _.
  destruct (decide (event_id = slot)) as [->|Hne].
  - rewrite lookup_insert_eq. eexists. split; [done|].
    assert (e0 = e) as -> by congruence.
    rewrite apply_update_status; [done|].
    destruct (EventUpdate.status payload) as [v|] eqn:Hv; [|done].
    exfalso. apply Hguard. simpl. rewrite Hv, He. split; [by eexists|].
    simpl. by rewrite Hst.
  - rewrite lookup_insert_ne by done. by exists e.
Qed.

Lemma negotiation_invariant_delete_event env u event_id db :
  negotiation_invariant db →
  negotiation_invariant (delete_event env u event_id db).2.
Proof.
  intros Hinv.
  destruct (delete_event_cases env u event_id db) as [->|[Hfree ->]]; [done|].
  apply negotiation_invariant_with_events; [|done].
  intros slot e k s He Hst Hs _ Href. exists e. split; [|done].
  rewrite lookup_delete_ne; [done|].
  intros ->. apply Hfree. by exists k, s.
Qed.

Lemma negotiation_invariant_request_swap env cu payload db :
  negotiation_invariant db →
  negotiation_invariant (request_swap env cu payload db).2.
Proof.
  intros [Hlock Hone].
  destruct (request_swap_cases env cu payload db)
    as [->|(a & b & Ha & Hb & Hne & Hsa & Hsb & Hfresh & ->)]; [done|].
  (* a slot of the new request is in no PENDING request of the old state *)
  assert (∀ k s slot, swap_requests db !! k = Some s →
            SwapRequest.status s = PENDING → references slot s →
            slot ≠ my_slot_id payload ∧ slot ≠ their_slot_id payload) as Hfree.
  { intros k s slot Hs Hp Href.
    destruct (Hlock _ _ _ Hs Hp Href) as (e & He & Hst).
    split; intros ->; congruence. }
  split.
  - intros k s slot. simpl. rewrite lookup_insert_Some.
    intros [[<- <-]|[Hk Hs]] Hp Href.
    + destruct Href as [<-|<-]; simpl.
      * rewrite lookup_alter_ne, lookup_alter_eq, Ha by done. by eexists.
      * rewrite lookup_alter_eq, lookup_alter_ne, Hb by done. by eexists.
    + destruct (Hfree _ _ _ Hs Hp Href) as [H1 H2].
      rewrite !lookup_alter_ne by done. by eapply Hlock.
  - intros slot k1 k2 s1 s2. simpl. rewrite !lookup_insert_Some.
    intros [[<- <-]|[Hk1 Hs1]] [[<- <-]|[Hk2 Hs2]] Hp1 Hp2 Hr1 Hr2; [done| | |].
    + destruct (Hfree _ _ _ Hs2 Hp2 Hr2) as [H1 H2].
      by destruct Hr1 as [E|E]; simpl in E.
    + destruct (Hfree _ _ _ Hs1 Hp1 Hr1) as [H1 H2].
      by destruct Hr2 as [E|E]; simpl in E.
    + by eapply Hone.
Qed.

Lemma negotiation_invariant_respond_to_swap env u request_id action db :
  foreign_keys db → negotiation_invariant db →
  negotiation_invariant (respond_to_swap env u request_id action db).2.
Proof.
  intros Hfk [Hlock Hone].
  destruct (respond_to_swap_cases env u request_id action db Hfk)
    as [->|(swap & o & q & Hswap & Ho & Hq & Hpend & ->)]; [done|].
  (* the request that is answered is the only PENDING one on its slots *)
  assert (∀ k s slot, k ≠ request_id → swap_requests db !! k = Some s →
            SwapRequest.status s = PENDING → references slot s →
            ¬ references slot swap) as Hfree.
  { intros k s slot Hk Hs Hp Href Href'. apply Hk.
    by eapply (Hone slot k request_id). }
  assert (∀ slot, ¬ references slot swap →
            events (responded env request_id action swap o q db) !! slot
            = events db !! slot) as Hframe.
  { intros slot Hn. unfold responded. destruct (negb (accepted action)); simpl.
    - by rewrite lookup_reject_swap, decide_False.
    - by apply lookup_accept_swap_other. }
  assert (∀ k s, swap_requests (responded env request_id action swap o q db) !! k
                 = Some s → SwapRequest.status s = PENDING →
                 k ≠ request_id ∧ swap_requests db !! k = Some s) as Hold.
  { intros k s. unfold responded.
    destruct (negb (accepted action)); simpl; rewrite lookup_insert_Some;
      (intros [[<- <-]|[Hk Hs]] Hp; [done|by split]). }
  split.
  - intros k s slot Hs Hp Href.
    destruct (Hold _ _ Hs Hp) as [Hk Hs'].
    rewrite Hframe by (by eapply Hfree). by eapply Hlock.
  - intros slot k1 k2 s1 s2 Hs1 Hs2 Hp1 Hp2 Hr1 Hr2.
    destruct (Hold _ _ Hs1 Hp1) as [_ Hs1'].
    destruct (Hold _ _ Hs2 Hp2) as [_ Hs2'].
    by eapply Hone.
Qed.

Lemma negotiation_invariant_run op db :
  ¬ edits_locked_slot op db → foreign_keys db →
  negotiation_invariant db → negotiation_invariant (run op db).
Proof.
  intros Hguard Hfk Hinv. unfold run.
  destruct (get_current_user (token_user_of op) db) as [cu|]; [|done].
  destruct op; simpl in *.
  - by apply negotiation_invariant_create_event.
  - by apply negotiation_invariant_update_event.
  - by apply negotiation_invariant_delete_event.
  - by apply negotiation_invariant_request_swap.
  - by apply negotiation_invariant_respond_to_swap.
Qed.

(** Where C2 does hold: in every state reached without an [update_event]
    that sets the status of a SWAP_PENDING slot, a slot is a side of at most
    one PENDING swap request, and every such slot is SWAP_PENDING. *)
Theorem at_most_one_pending_without_edits_of_locked_slots db :
  reachable_without_edits_of_locked_slots db →
  at_most_one_pending db ∧ pending_slots_locked db.
Proof.
  intros Hreach. cut (negotiation_invariant db); [by intros []|].
  induction Hreach as [us|op db Hreach IH Hguard].
  - split.
    + intros k s slot Hs. simpl in Hs. by rewrite lookup_empty in Hs.
    + intros slot k1 k2 s1 s2 Hs. simpl in Hs. by rewrite lookup_empty in Hs.
  - apply negotiation_invariant_run; [done| |done].
    by eapply reachable_by_foreign_keys.
Qed.

(** The setup of the scenario, the first swap request and Bob's acceptance
    are reached in this way: no slot is edited while it is locked. *)
Example accepted_without_edits_of_locked_slots :
  reachable_without_edits_of_locked_slots Scenario.accepted_by_bob.2.
Proof.
  unfold reachable_without_edits_of_locked_slots.
  replace Scenario.accepted_by_bob.2 with
    (foldl (λ db op, run op db) (mkDatabase Scenario.registered ∅ ∅)
       (Scenario.setup ++
        [RequestSwap (Scenario.env 100 1000) 1 (mkSwapRequestCreate 10 20);
         RespondToSwap (Scenario.env 0 2000) 2 100 Scenario.accept]))
    by (vm_compute; reflexivity).
  unfold Scenario.setup. cbn [foldl app].
  repeat (apply reachable_step;
          [|vm_compute; first [by intros [] | by intros [_ [=]]]]).
  constructor.
Qed.

(** ** Reachable states *)

Lemma reachable_foldl ops db :
  reachable db → reachable (foldl (λ db op, run op db) db ops).
Proof.
  revert db. induction ops as [|op ops IH]; intros db Hdb; [done|].
  simpl. apply IH. by constructor.
Qed.

Lemma reachable_db0 : reachable Scenario.db0.
Proof.
  apply reachable_foldl. constructor.
Qed.

(** C2 does not hold of the code.  With request 100 (slot 10 for slot 20)
    still PENDING, Alice sets her slot 10 back to SWAPPABLE through
    [update_event], which looks at no swap request, and offers it again,
    for Carol's slot 30.  The state is reached by public operations only,
    and in it slot 10 is the offered side of the two PENDING requests 100
    and 101. *)
Theorem update_event_reopens_pending_slot :
  reachable Scenario.db2 ∧
  swap_requests Scenario.db2 !! 100%N
    = Some (SwapRequest.mk 1 10 20 PENDING 1000 1000) ∧
  swap_requests Scenario.db2 !! 101%N
    = Some (SwapRequest.mk 1 10 30 PENDING 1600 1600) ∧
  ¬ at_most_one_pending Scenario.db2.
Proof.
  split_and!; [|reflexivity|reflexivity|].
  - apply reachable_foldl, reachable_db0.
  - intros H.
    by specialize (H 10%N 100%N 101%N _ _ eq_refl eq_refl eq_refl eq_refl
                     (or_introl eq_refl) (or_introl eq_refl)).
Qed.

(** * Further properties of the handlers *)

(** ** What a successful [request_swap] presupposes *)

(** X1. A [request_swap] that succeeds was made by the owner of the offered
    slot for a slot of somebody else, both slots being distinct and
    SWAPPABLE before the call; the answer shows the new request PENDING
    under the generated key, with the caller as requester and both slots
    SWAP_PENDING. *)
Theorem request_swap_success_presupposes env u payload db r db' :
  request_swap env u payload db = (r, db') →
  is_success r →
  ∃ a b,
    events db !! my_slot_id payload = Some a ∧
    events db !! their_slot_id payload = Some b ∧
    my_slot_id payload ≠ their_slot_id payload ∧
    Event.owner_id a = u.1 ∧ Event.owner_id b ≠ u.1 ∧
    Event.status a = SWAPPABLE ∧ Event.status b = SWAPPABLE ∧
    swap_requests db !! uuid4 env = None ∧
    r = Return (SwapRequestResponse.mk (uuid4 env) u.1 (my_slot_id payload)
                  (their_slot_id payload) PENDING (now env) (now env)
                  (EventResponse.mk (my_slot_id payload) (Event.title a)
                     (Event.start_time a) (Event.end_time a) SWAP_PENDING u.1)
                  (EventResponse.mk (their_slot_id payload) (Event.title b)
                     (Event.start_time b) (Event.end_time b) SWAP_PENDING
                     (Event.owner_id b))
                  (UserResponse.mk u.1 (User.email u.2) (User.name u.2))).
Proof.
  unfold request_swap, insert_row, commit, refresh_ok.
  destruct (events db !! my_slot_id payload) as [a|] eqn:Ha; [|by intros [= <- _]].
  destruct (events db !! their_slot_id payload) as [b|] eqn:Hb;
    [|by intros [= <- _]].
  destruct (decide (Event.owner_id a ≠ u.1)) as [|Hown]; [by intros [= <- _]|].
  destruct (decide (Event.owner_id b = u.1)) as [|Hother]; [by intros [= <- _]|].
  destruct (decide (Event.status a ≠ SWAPPABLE)) as [|Hsa]; [by intros [= <- _]|].
  destruct (decide (Event.status b ≠ SWAPPABLE)) as [|Hsb]; [by intros [= <- _]|].
  apply dec_stable in Hown, Hsa, Hsb.
  destruct (swap_requests db !! uuid4 env) eqn:Hfresh; simpl; [by intros [= <- _]|].
  destruct (store env); simpl; [|by intros [= <- _]..].
  intros [= <- _] _. exists a, b. split_and!; try done.
  - intros E. rewrite E in Ha. congruence.
  - unfold SwapRequestResponse.build, EventResponse.model_validate,
      UserResponse.model_validate. simpl. by rewrite Hown.
Qed.

Lemma request_swap_success_presupposes_witness :
  ∃ a b,
    events Scenario.db0 !! 10%N = Some a ∧
    events Scenario.db0 !! 20%N = Some b ∧
    10%N ≠ 20%N ∧
    Event.owner_id a = 1%N ∧ Event.owner_id b ≠ 1%N ∧
    Event.status a = SWAPPABLE ∧ Event.status b = SWAPPABLE ∧
    swap_requests Scenario.db0 !! 100%N = None ∧
    Scenario.requested.1 =
      Return (SwapRequestResponse.mk 100 1 10 20 PENDING 1000 1000
                (EventResponse.mk 10 (Event.title a) (Event.start_time a)
                   (Event.end_time a) SWAP_PENDING 1)
                (EventResponse.mk 20 (Event.title b) (Event.start_time b)
                   (Event.end_time b) SWAP_PENDING (Event.owner_id b))
                (UserResponse.mk 1 "alice@example.com" "Alice")).
Proof.
  exact (request_swap_success_presupposes (Scenario.env 100 1000)
           (1%N, Scenario.alice) (mkSwapRequestCreate 10 20) Scenario.db0
           Scenario.requested.1 Scenario.requested.2 eq_refl I).
Defined.

(** ** Who may respond, and what a response touches *)

(** X2. Whatever the status of the request and whatever the answer, a
    [respond_to_swap] by anybody but the owner of the requested slot is
    refused with 403 and changes nothing; the requester is no exception. *)
Theorem respond_by_other_than_owner_is_forbidden
    env u request_id action db R A B :
  swap_requests db !! request_id = Some R →
  events db !! SwapRequest.offered_event_id R = Some A →
  events db !! SwapRequest.requested_event_id R = Some B →
  Event.owner_id B ≠ u →
  respond_to_swap env u request_id action db
    = (raise HTTP_403_FORBIDDEN "Not authorized to respond to this request", db).
Proof.
  intros HR HA HB Hu. unfold respond_to_swap. rewrite HR, HA, HB.
  by rewrite decide_True.
Qed.

Lemma respond_by_other_than_owner_witness :
  respond_to_swap (Scenario.env 0 2000) 1 100 Scenario.accept Scenario.db1
    = (raise HTTP_403_FORBIDDEN "Not authorized to respond to this request",
       Scenario.db1).
Proof.
  exact (respond_by_other_than_owner_is_forbidden (Scenario.env 0 2000) 1%N 100%N
           Scenario.accept Scenario.db1
           (SwapRequest.mk 1 10 20 PENDING 1000 1000)
           (Event.set_status SWAP_PENDING Scenario.S1)
           (Event.set_status SWAP_PENDING Scenario.S2)
           eq_refl eq_refl eq_refl ltac:(discriminate)).
Defined.

(** X3. A successful [respond_to_swap] touches the answered request and its
    two slots and nothing else: users, every other request and every other
    event are as before; the request keeps its requester, its two slots and
    its creation time and gets the time of the response as update time; and
    the two slots keep title, start and end. *)
Theorem respond_to_swap_frame env u request_id action db R r db' :
  swap_requests db !! request_id = Some R →
  respond_to_swap env u request_id action db = (r, db') →
  is_success r →
  users db' = users db ∧
  (∀ k, k ≠ request_id → swap_requests db' !! k = swap_requests db !! k) ∧
  (∀ k, ¬ references k R → events db' !! k = events db !! k) ∧
  (∃ R', swap_requests db' !! request_id = Some R' ∧
         SwapRequest.requester_id R' = SwapRequest.requester_id R ∧
         SwapRequest.offered_event_id R' = SwapRequest.offered_event_id R ∧
         SwapRequest.requested_event_id R' = SwapRequest.requested_event_id R ∧
         SwapRequest.created_at R' = SwapRequest.created_at R ∧
         SwapRequest.updated_at R' = now env ∧
         SwapRequest.status R' = if accepted action then ACCEPTED else REJECTED) ∧
  (∀ k E, references k R → events db !! k = Some E →
     ∃ E', events db' !! k = Some E' ∧
           Event.title E' = Event.title E ∧
           Event.start_time E' = Event.start_time E ∧
           Event.end_time E' = Event.end_time E).
Proof.
  intros HR Hrun Hok.
  destruct (respond_to_swap_success _ _ _ _ _ _ _ Hrun Hok)
    as (swap & o & q & Hs & Ho & Hq & _ & _ & _ & ->).
  assert (swap = R) as -> by congruence.
  unfold responded. destruct (accepted action); simpl; split_and!; try done.
  - intros k Hk. by rewrite lookup_insert_ne.
  - intros k Hk. by apply lookup_accept_swap_other.
  - eexists. split; [apply lookup_insert_eq|done].
  - intros k E [<-|<-] HE.
    + rewrite (lookup_accept_swap_offered _ _ _ _ Ho Hq).
      assert (o = E) as -> by congruence. by eexists.
    + rewrite (lookup_accept_swap_requested _ _ _ _ Ho Hq).
      assert (q = E) as -> by congruence. by eexists.
  - intros k Hk. by rewrite lookup_insert_ne.
  - intros k Hk. by rewrite lookup_reject_swap, decide_False.
  - eexists. split; [apply lookup_insert_eq|done].
  - intros k E Hk HE. rewrite lookup_reject_swap, decide_True, HE by done.
    simpl. eexists. split; [done|]. unfold revert_status. by case_decide.
Qed.

Lemma respond_to_swap_frame_witness :
  users Scenario.accepted_by_bob.2 = users Scenario.db1 ∧
  events Scenario.accepted_by_bob.2 !! 30%N = events Scenario.db1 !! 30%N.
Proof.
  destruct (respond_to_swap_frame (Scenario.env 0 2000) 2%N 100%N Scenario.accept
              Scenario.db1 (SwapRequest.mk 1 10 20 PENDING 1000 1000)
              Scenario.accepted_by_bob.1 Scenario.accepted_by_bob.2
              eq_refl eq_refl I) as (Hu & _ & He & _).
  split; [exact Hu|]. apply He. by intros [|].
Defined.

(** ** A negotiation from request to response *)

Lemma request_swap_commits env u payload db a b :
  events db !! my_slot_id payload = Some a →
  events db !! their_slot_id payload = Some b →
  Event.owner_id a = u.1 → Event.owner_id b ≠ u.1 →
  Event.status a = SWAPPABLE → Event.status b = SWAPPABLE →
  commit_ok env = true → swap_requests db !! uuid4 env = None →
  (request_swap env u payload db).2 =
    mkDatabase (users db)
      (alter (Event.set_status SWAP_PENDING) (their_slot_id payload)
         (alter (Event.set_status SWAP_PENDING) (my_slot_id payload) (events db)))
      (<[uuid4 env := SwapRequest.mk u.1 (my_slot_id payload)
                        (their_slot_id payload) PENDING (now env) (now env)]>
         (swap_requests db)).
Proof.
  intros Ha Hb Hown Hother Hsa Hsb Hok Hfresh. apply commit_ok_Served in Hok.
  unfold request_swap, insert_row, commit, refresh_ok. rewrite Ha, Hb.
  rewrite decide_False by (intros ?; done).
  rewrite decide_False by done.
  rewrite decide_False by (intros ?; done).
  rewrite decide_False by (intros ?; done).
  by rewrite Hfresh, Hok.
Qed.

Lemma respond_to_swap_commits env u request_id action db R A B :
  swap_requests db !! request_id = Some R →
  events db !! SwapRequest.offered_event_id R = Some A →
  events db !! SwapRequest.requested_event_id R = Some B →
  Event.owner_id B = u → SwapRequest.status R = PENDING →
  commit_ok env = true →
  is_Some (users db !! SwapRequest.requester_id R) →
  is_success (respond_to_swap env u request_id action db).1 ∧
  (respond_to_swap env u request_id action db).2
    = responded env request_id action R A B db.
Proof.
  intros HR HA HB Hu Hp Hok [usr Husr]. apply commit_ok_Served in Hok.
  unfold respond_to_swap, responded, commit, refresh_ok. rewrite HR, HA, HB, Hok.
  rewrite decide_False by (intros ?; done).
  rewrite decide_False by (intros ?; done).
  destruct (negb (accepted action)); simpl; rewrite Husr.
  - rewrite !lookup_reject_swap, HA, HB.
    by rewrite !decide_True by (unfold references; auto).
  - rewrite (lookup_accept_swap_offered _ _ _ _ HA HB).
    by rewrite (lookup_accept_swap_requested _ _ _ _ HA HB).
Qed.

(** The state in which the request just made waits for its answer. *)
Lemma request_swap_then_pending env u payload db a b :
  events db !! my_slot_id payload = Some a →
  events db !! their_slot_id payload = Some b →
  Event.owner_id a = u.1 → Event.owner_id b ≠ u.1 →
  Event.status a = SWAPPABLE → Event.status b = SWAPPABLE →
  commit_ok env = true → swap_requests db !! uuid4 env = None →
  let db1 := (request_swap env u payload db).2 in
  my_slot_id payload ≠ their_slot_id payload ∧
  users db1 = users db ∧
  swap_requests db1 !! uuid4 env =
    Some (SwapRequest.mk u.1 (my_slot_id payload) (their_slot_id payload)
            PENDING (now env) (now env)) ∧
  events db1 !! my_slot_id payload = Some (Event.set_status SWAP_PENDING a) ∧
  events db1 !! their_slot_id payload = Some (Event.set_status SWAP_PENDING b).
Proof.
  intros Ha Hb Hown Hother Hsa Hsb Hok Hfresh db1. subst db1.
  rewrite (request_swap_commits _ _ _ _ _ _ Ha Hb Hown Hother Hsa Hsb Hok Hfresh).
  assert (my_slot_id payload ≠ their_slot_id payload) as Hne
    by (intros E; rewrite E in Ha; congruence).
  simpl. split_and!; try done.
  - apply lookup_insert_eq.
  - by rewrite lookup_alter_ne, lookup_alter_eq, Ha.
  - by rewrite lookup_alter_eq, lookup_alter_ne, Hb.
Qed.

(** X4. Request, then accept.  The owner of a SWAPPABLE slot [a] asks for
    the SWAPPABLE slot [b] of somebody else, who accepts; both transactions
    commit.  Then the two slots have changed hands and are BUSY, nothing
    else about them has changed, the request is ACCEPTED with the times of
    the two calls, and no other event is touched. *)
Theorem request_then_accept env1 env2 u payload db a b :
  events db !! my_slot_id payload = Some a →
  events db !! their_slot_id payload = Some b →
  Event.owner_id a = u.1 → Event.owner_id b ≠ u.1 →
  Event.status a = SWAPPABLE → Event.status b = SWAPPABLE →
  commit_ok env1 = true → swap_requests db !! uuid4 env1 = None →
  commit_ok env2 = true → is_Some (users db !! u.1) →
  let db1 := (request_swap env1 u payload db).2 in
  let response :=
    respond_to_swap env2 (Event.owner_id b) (uuid4 env1)
      (mkSwapResponseAction true) db1 in
  is_success response.1 ∧
  events response.2 !! my_slot_id payload =
    Some (Event.mk (Event.title a) (Event.start_time a) (Event.end_time a)
            BUSY (Event.owner_id b)) ∧
  events response.2 !! their_slot_id payload =
    Some (Event.mk (Event.title b) (Event.start_time b) (Event.end_time b)
            BUSY u.1) ∧
  swap_requests response.2 !! uuid4 env1 =
    Some (SwapRequest.mk u.1 (my_slot_id payload) (their_slot_id payload)
            ACCEPTED (now env1) (now env2)) ∧
  ∀ k, k ≠ my_slot_id payload → k ≠ their_slot_id payload →
    events response.2 !! k = events db !! k.
Proof.
  intros Ha Hb Hown Hother Hsa Hsb Hok1 Hfresh Hok2 Hu db1 response.
  destruct (request_swap_then_pending _ _ _ _ _ _
              Ha Hb Hown Hother Hsa Hsb Hok1 Hfresh)
    as (Hne & Hus & HR & Ha1 & Hb1).
  fold db1 in Hus, HR, Ha1, Hb1.
  destruct (respond_to_swap_commits env2 (Event.owner_id b) (uuid4 env1)
              (mkSwapResponseAction true) db1 _ _ _ HR Ha1 Hb1
              eq_refl eq_refl Hok2) as [Hsucc Hdb2].
  { simpl. by rewrite Hus. }
  fold response in Hsucc, Hdb2. rewrite Hdb2. unfold responded. simpl.
  split_and!; [done| | | |].
  - pose proof (lookup_accept_swap_offered
                  (SwapRequest.mk u.1 (my_slot_id payload)
                    (their_slot_id payload) PENDING (now env1) (now env1))
                  _ _ _ Ha1 Hb1) as H.
    simpl in H. by rewrite H.
  - pose proof (lookup_accept_swap_requested
                  (SwapRequest.mk u.1 (my_slot_id payload)
                    (their_slot_id payload) PENDING (now env1) (now env1))
                  _ _ _ Ha1 Hb1) as H.
    simpl in H. rewrite H. simpl. by rewrite Hown.
  - apply lookup_insert_eq.
  - intros k Hk1 Hk2. rewrite lookup_accept_swap_other by (by intros [|]).
    unfold db1.
    rewrite (request_swap_commits _ _ _ _ _ _ Ha Hb Hown Hother Hsa Hsb Hok1 Hfresh).
    simpl. by rewrite !lookup_alter_ne.
Qed.

Lemma request_then_accept_witness :
  is_success Scenario.accepted_by_bob.1 ∧
  events Scenario.accepted_by_bob.2 !! 10%N
    = Some (Event.mk "standup" 100 130 BUSY 2) ∧
  events Scenario.accepted_by_bob.2 !! 20%N
    = Some (Event.mk "review" 200 260 BUSY 1) ∧
  swap_requests Scenario.accepted_by_bob.2 !! 100%N
    = Some (SwapRequest.mk 1 10 20 ACCEPTED 1000 2000).
Proof.
  destruct (request_then_accept (Scenario.env 100 1000) (Scenario.env 0 2000)
              (1%N, Scenario.alice) (mkSwapRequestCreate 10 20) Scenario.db0
              Scenario.S1 Scenario.S2
              eq_refl eq_refl eq_refl ltac:(discriminate) eq_refl eq_refl
              eq_refl eq_refl eq_refl ltac:(by eexists))
    as (H1 & H2 & H3 & H4 & _).
  split; [exact H1|]. split; [exact H2|]. split; [exact H3|exact H4].
Defined.

(** X5. Request, then reject.  In the same setting, if the owner of [b]
    rejects instead, the table of events is exactly what it was before the
    request: both slots are SWAPPABLE again and nothing else has moved.
    What remains of the negotiation is the request itself, REJECTED. *)
Theorem request_then_reject_restores_events env1 env2 u payload db a b :
  events db !! my_slot_id payload = Some a →
  events db !! their_slot_id payload = Some b →
  Event.owner_id a = u.1 → Event.owner_id b ≠ u.1 →
  Event.status a = SWAPPABLE → Event.status b = SWAPPABLE →
  commit_ok env1 = true → swap_requests db !! uuid4 env1 = None →
  commit_ok env2 = true → is_Some (users db !! u.1) →
  let db1 := (request_swap env1 u payload db).2 in
  let response :=
    respond_to_swap env2 (Event.owner_id b) (uuid4 env1)
      (mkSwapResponseAction false) db1 in
  is_success response.1 ∧
  events response.2 = events db ∧
  users response.2 = users db ∧
  swap_requests response.2 =
    <[uuid4 env1 := SwapRequest.mk u.1 (my_slot_id payload)
                      (their_slot_id payload) REJECTED (now env1) (now env2)]>
      (swap_requests db).
Proof.
  intros Ha Hb Hown Hother Hsa Hsb Hok1 Hfresh Hok2 Hu db1 response.
  destruct (request_swap_then_pending _ _ _ _ _ _
              Ha Hb Hown Hother Hsa Hsb Hok1 Hfresh)
    as (Hne & Hus & HR & Ha1 & Hb1).
  fold db1 in Hus, HR, Ha1, Hb1.
  destruct (respond_to_swap_commits env2 (Event.owner_id b) (uuid4 env1)
              (mkSwapResponseAction false) db1 _ _ _ HR Ha1 Hb1
              eq_refl eq_refl Hok2) as [Hsucc Hdb2].
  { simpl. by rewrite Hus. }
  fold response in Hsucc, Hdb2. rewrite Hdb2. unfold responded. simpl.
  unfold db1.
  rewrite (request_swap_commits _ _ _ _ _ _ Ha Hb Hown Hother Hsa Hsb Hok1 Hfresh).
  simpl. split_and!; [done| |done|].
  - apply map_eq. intros k. rewrite lookup_reject_swap. unfold references. simpl.
    destruct (decide (my_slot_id payload = k)) as [<-|Hk1].
    + rewrite decide_True by auto.
      rewrite lookup_alter_ne, lookup_alter_eq, Ha by done. simpl.
      unfold revert_status. simpl. destruct a; simpl in *. by rewrite Hsa.
    + destruct (decide (their_slot_id payload = k)) as [<-|Hk2].
      * rewrite decide_True by auto.
        rewrite lookup_alter_eq, lookup_alter_ne, Hb by done. simpl.
        unfold revert_status. simpl. destruct b; simpl in *. by rewrite Hsb.
      * rewrite decide_False by (by intros [|]).
        by rewrite !lookup_alter_ne.
  - apply insert_insert_eq.
Qed.

Lemma request_then_reject_witness :
  is_success Scenario.rejected_by_bob.1 ∧
  events Scenario.rejected_by_bob.2 = events Scenario.db0 ∧
  users Scenario.rejected_by_bob.2 = users Scenario.db0 ∧
  swap_requests Scenario.rejected_by_bob.2 =
    <[100%N := SwapRequest.mk 1 10 20 REJECTED 1000 2000]>
      (swap_requests Scenario.db0).
Proof.
  exact (request_then_reject_restores_events
           (Scenario.env 100 1000) (Scenario.env 0 2000)
           (1%N, Scenario.alice) (mkSwapRequestCreate 10 20) Scenario.db0
           Scenario.S1 Scenario.S2
           eq_refl eq_refl eq_refl ltac:(discriminate) eq_refl eq_refl
           eq_refl eq_refl eq_refl ltac:(by eexists)).
Defined.

(** ** What no operation does *)

(** X6. No operation on events or swap requests writes to the table of
    users. *)
Theorem users_never_change op db : users (run op db) = users db.
Proof.
  unfold run.
  destruct (get_current_user (token_user_of op) db) as [cu|]; [|done].
  destruct op as [env ? payload|env ? event_id payload|env ? event_id
                 |env ? payload|env ? request_id action].
  - by destruct (create_event_cases env cu.1 payload db) as [->|[_ ->]].
  - by destruct (update_event_cases env cu.1 event_id payload db)
      as [->|(? & _ & _ & ->)].
  - by destruct (delete_event_cases env cu.1 event_id db) as [->|[_ ->]].
  - by destruct (request_swap_cases env cu payload db)
      as [->|(? & ? & _ & _ & _ & _ & _ & _ & ->)].
  - destruct (respond_to_swap_state env cu.1 request_id action db)
      as [->|(? & ? & ? & _ & _ & _ & _ & ->)]; [done|].
    unfold responded. by destruct (negb (accepted action)).
Qed.

(** X7. No operation deletes a swap request or rewrites its history: after
    any operation a request is still there with the same requester, the
    same two slots and the same creation time, and a request that is
    ACCEPTED or REJECTED is there unchanged. *)
Theorem swap_requests_are_kept op db k s :
  swap_requests db !! k = Some s →
  ∃ s', swap_requests (run op db) !! k = Some s' ∧
        SwapRequest.requester_id s' = SwapRequest.requester_id s ∧
        SwapRequest.offered_event_id s' = SwapRequest.offered_event_id s ∧
        SwapRequest.requested_event_id s' = SwapRequest.requested_event_id s ∧
        SwapRequest.created_at s' = SwapRequest.created_at s ∧
        (SwapRequest.status s ≠ PENDING → s' = s).
Proof.
  intros Hs. unfold run.
  destruct (get_current_user (token_user_of op) db) as [cu|];
    [|by exists s].
  destruct op as [env ? payload|env ? event_id payload|env ? event_id
                 |env ? payload|env ? request_id action].
  - destruct (create_event_cases env cu.1 payload db) as [->|[_ ->]];
      by exists s.
  - destruct (update_event_cases env cu.1 event_id payload db)
      as [->|(? & _ & _ & ->)]; by exists s.
  - destruct (delete_event_cases env cu.1 event_id db) as [->|[_ ->]];
      by exists s.
  - destruct (request_swap_cases env cu payload db)
      as [->|(? & ? & _ & _ & _ & _ & _ & Hfresh & ->)]; [by exists s|].
    exists s. simpl. rewrite lookup_insert_ne; [done|]. intros E.
    rewrite E in Hfresh. congruence.
  - destruct (respond_to_swap_state env cu.1 request_id action db)
      as [->|(swap & ? & ? & Hswap & _ & _ & Hp & ->)]; [by exists s|].
    destruct (decide (request_id = k)) as [->|Hne].
    + assert (swap = s) as -> by congruence.
      unfold responded. destruct (negb (accepted action)); simpl;
        rewrite lookup_insert_eq; eexists; (split; [done|]); by simpl.
    + exists s. unfold responded. destruct (negb (accepted action)); simpl;
        by rewrite lookup_insert_ne.
Qed.

Lemma swap_requests_are_kept_witness :
  ∃ s', swap_requests
          (run (RespondToSwap (Scenario.env 0 3000) 1 100 Scenario.reject)
             Scenario.accepted_by_bob.2) !! 100%N = Some s' ∧
        SwapRequest.requester_id s' = 1%N ∧
        SwapRequest.offered_event_id s' = 10%N ∧
        SwapRequest.requested_event_id s' = 20%N ∧
        SwapRequest.created_at s' = 1000%Z ∧
        (ACCEPTED ≠ PENDING → s' = SwapRequest.mk 1 10 20 ACCEPTED 1000 2000).
Proof.
  exact (swap_requests_are_kept
           (RespondToSwap (Scenario.env 0 3000) 1 100 Scenario.reject)
           Scenario.accepted_by_bob.2 100%N
           (SwapRequest.mk 1 10 20 ACCEPTED 1000 2000) eq_refl).
Defined.

(** X8. The owner of an event changes in one way only: by the acceptance of
    a PENDING swap request of which the event is a side. *)
Theorem owner_changes_only_by_accept op db k e e' :
  events db !! k = Some e →
  events (run op db) !! k = Some e' →
  Event.owner_id e' ≠ Event.owner_id e →
  ∃ env u request_id R,
    op = RespondToSwap env u request_id (mkSwapResponseAction true) ∧
    swap_requests db !! request_id = Some R ∧
    SwapRequest.status R = PENDING ∧
    references k R.
Proof.
  intros He. unfold run.
  destruct (get_current_user (token_user_of op) db) as [cu|];
    [|intros; congruence].
  destruct op as [env ? payload|env ? event_id payload|env ? event_id
                 |env ? payload|env u request_id action]; simpl.
  - destruct (create_event_cases env cu.1 payload db) as [->|[Hfresh ->]];
      [intros; congruence|].
    simpl. rewrite lookup_insert_ne by (intros E; congruence).
    intros; congruence.
  - destruct (update_event_cases env cu.1 event_id payload db)
      as [->|(e0 & He0 & _ & ->)]; [intros; congruence|].
    simpl. rewrite lookup_insert_Some.
    intros [[<- <-]|[_ ?]] Hne; [|congruence].
    rewrite apply_update_owner_id in Hne. congruence.
  - destruct (delete_event_cases env cu.1 event_id db) as [->|[_ ->]];
      [intros; congruence|].
    simpl. rewrite lookup_delete_Some. intros [_ ?] ?. congruence.
  - destruct (request_swap_cases env cu payload db)
      as [->|(? & ? & _ & _ & _ & _ & _ & _ & ->)]; [intros; congruence|].
    simpl. rewrite !lookup_alter_Some. intros Hcase Hne. exfalso.
    repeat match goal with
    | H : _ ∨ _ |- _ => destruct H
    | H : _ ∧ _ |- _ => destruct H
    | H : ∃ _, _ |- _ => destruct H
    | H : alter _ _ _ !! _ = Some _ |- _ => rewrite lookup_alter_Some in H
    end; subst; simpl in *; congruence.
  - destruct (respond_to_swap_state env cu.1 request_id action db)
      as [->|(R & o & q & HR & Ho & Hq & Hp & ->)]; [intros; congruence|].
    destruct (decide (references k R)) as [Href|Href].
    + destruct action as [[|]].
      * intros _ _. by exists env, u, request_id, R.
      * unfold responded. simpl.
        rewrite lookup_reject_swap, decide_True, He by done. simpl.
        intros [= <-]. by rewrite revert_status_owner_id.
    + unfold responded. destruct (negb (accepted action)); simpl.
      * rewrite lookup_reject_swap, decide_False by done. intros; congruence.
      * rewrite lookup_accept_swap_other by done. intros; congruence.
Qed.

Lemma owner_changes_only_by_accept_witness :
  ∃ env u request_id R,
    RespondToSwap (Scenario.env 0 2000) 2 100 Scenario.accept
      = RespondToSwap env u request_id (mkSwapResponseAction true) ∧
    swap_requests Scenario.db1 !! request_id = Some R ∧
    SwapRequest.status R = PENDING ∧
    references 10%N R.
Proof.
  exact (owner_changes_only_by_accept
           (RespondToSwap (Scenario.env 0 2000) 2 100 Scenario.accept)
           Scenario.db1 10%N (Event.set_status SWAP_PENDING Scenario.S1)
           (Event.mk "standup" 100 130 BUSY 2)
           eq_refl eq_refl ltac:(discriminate)).
Defined.

(** ** Invariants of the reachable states, as a caller meets them *)

(** X9. In every state reached through the public operations the foreign
    keys of the schema hold: the owner of every event and the requester of
    every swap request are registered users, and both slots of every swap
    request exist. *)
Theorem reachable_foreign_keys db : reachable db → foreign_keys db.
Proof. apply reachable_by_foreign_keys. Qed.

Lemma reachable_foreign_keys_witness : foreign_keys Scenario.db2.
Proof.
  apply reachable_foreign_keys.
  unfold Scenario.db2, Scenario.db0.
  do 2 apply reachable_foldl. apply reachable_init.
Defined.

(** X10. As long as nobody has set the status of a SWAP_PENDING slot through
    [update_event], a slot that is a side of a PENDING swap request cannot
    be put into a second one: every [request_swap] that names it, as the
    offered or as the requested slot, fails and changes nothing. *)
Theorem no_second_request_on_negotiated_slot env u payload db k s slot :
  reachable_without_edits_of_locked_slots db →
  swap_requests db !! k = Some s → SwapRequest.status s = PENDING →
  references slot s →
  my_slot_id payload = slot ∨ their_slot_id payload = slot →
  is_failure (request_swap env u payload db).1 ∧
  (request_swap env u payload db).2 = db.
Proof.
  intros Hreach Hs Hp Href Hslot.
  destruct (at_most_one_pending_without_edits_of_locked_slots db Hreach)
    as [_ Hlock].
  destruct (Hlock _ _ _ Hs Hp Href) as (e & He & Hst).
  unfold request_swap.
  destruct (events db !! my_slot_id payload) as [a|] eqn:Ha; [|done].
  destruct (events db !! their_slot_id payload) as [b|] eqn:Hb; [|done].
  destruct (decide (Event.owner_id a ≠ u.1)); [done|].
  destruct (decide (Event.owner_id b = u.1)); [done|].
  destruct (decide (Event.status a ≠ SWAPPABLE)) as [|Hsa]; [done|].
  destruct (decide (Event.status b ≠ SWAPPABLE)) as [|Hsb]; [done|].
  apply dec_stable in Hsa, Hsb. exfalso.
  destruct Hslot as [<-|<-]; congruence.
Qed.

Lemma no_second_request_on_negotiated_slot_witness :
  is_failure (request_swap (Scenario.env 101 1600) (1%N, Scenario.alice)
                (mkSwapRequestCreate 10 30) Scenario.db1).1 ∧
  (request_swap (Scenario.env 101 1600) (1%N, Scenario.alice)
     (mkSwapRequestCreate 10 30) Scenario.db1).2 = Scenario.db1.
Proof.
  assert (reachable_without_edits_of_locked_slots Scenario.db1) as Hreach.
  { unfold reachable_without_edits_of_locked_slots.
    replace Scenario.db1 with
      (foldl (λ db op, run op db) (mkDatabase Scenario.registered ∅ ∅)
         (Scenario.setup ++
          [RequestSwap (Scenario.env 100 1000) 1 (mkSwapRequestCreate 10 20)]))
      by (vm_compute; reflexivity).
    unfold Scenario.setup. cbn [foldl app].
    repeat (apply reachable_step;
            [|vm_compute; first [by intros [] | by intros [_ [=]]]]).
    constructor. }
  exact (no_second_request_on_negotiated_slot (Scenario.env 101 1600)
           (1%N, Scenario.alice) (mkSwapRequestCreate 10 30) Scenario.db1
           100%N (SwapRequest.mk 1 10 20 PENDING 1000 1000) 10%N
           Hreach eq_refl eq_refl (or_introl eq_refl) (or_introl eq_refl)).
Defined.

Lemma request_swap_state env cu payload db :
  (request_swap env cu payload db).2 = db ∨
  ∃ a b,
    events db !! my_slot_id payload = Some a ∧
    events db !! their_slot_id payload = Some b ∧
    Event.owner_id a = cu.1 ∧ Event.owner_id b ≠ cu.1 ∧
    swap_requests db !! uuid4 env = None ∧
    (request_swap env cu payload db).2 =
      mkDatabase (users db)
        (alter (Event.set_status SWAP_PENDING) (their_slot_id payload)
           (alter (Event.set_status SWAP_PENDING) (my_slot_id payload) (events db)))
        (<[uuid4 env := SwapRequest.mk cu.1 (my_slot_id payload)
                          (their_slot_id payload) PENDING (now env) (now env)]>
           (swap_requests db)).
Proof.
  unfold request_swap, insert_row, commit, refresh_ok.
  destruct (events db !! my_slot_id payload) as [a|] eqn:Ha; [|by left].
  destruct (events db !! their_slot_id payload) as [b|] eqn:Hb; [|by left].
  destruct (decide (Event.owner_id a ≠ cu.1)) as [|Hown]; [by left|].
  destruct (decide (Event.owner_id b = cu.1)) as [|Hother]; [by left|].
  destruct (decide (Event.status a ≠ SWAPPABLE)); [by left|].
  destruct (decide (Event.status b ≠ SWAPPABLE)); [by left|].
  apply dec_stable in Hown.
  destruct (swap_requests db !! uuid4 env) eqn:Hfresh; simpl; [by left|].
  destruct (store env); simpl; [|by left|]; right; by exists a, b.
Qed.

Lemma alter_keeps_owner f k (evs : gmap N Event.t) x e :
  (∀ e, Event.owner_id (f e) = Event.owner_id e) →
  evs !! x = Some e →
  ∃ e', alter f k evs !! x = Some e' ∧ Event.owner_id e' = Event.owner_id e.
Proof.
  intros Hf He. rewrite lookup_alter. case_decide; subst.
  - rewrite He. simpl. eauto.
  - eauto.
Qed.

(** Operations on events only: enough that an event which a swap request
    points at stays in place with its owner. *)
Lemma pending_sides_owned_with_events db evs' :
  (∀ slot e k s, events db !! slot = Some e →
     swap_requests db !! k = Some s → references slot s →
     ∃ e', evs' !! slot = Some e' ∧ Event.owner_id e' = Event.owner_id e) →
  pending_sides_owned db → pending_sides_owned (with_events evs' db).
Proof.
  intros Hkeep Hown k s Hs Hp. simpl in *.
  destruct (Hown k s Hs Hp) as (a & b & Ha & Hb & Hao & Hbo).
  destruct (Hkeep _ _ _ _ Ha Hs (or_introl eq_refl)) as (a' & Ha' & Hao').
  destruct (Hkeep _ _ _ _ Hb Hs (or_intror eq_refl)) as (b' & Hb' & Hbo').
  exists a', b'. split_and!; congruence.
Qed.

Lemma pending_sides_owned_run op db :
  negotiation_invariant db →
  pending_sides_owned db → pending_sides_owned (run op db).
Proof.
  intros [_ Hone] Hown. unfold run.
  destruct (get_current_user (token_user_of op) db) as [cu|]; [|done].
  destruct op as [env ? payload|env ? event_id payload|env ? event_id
                 |env ? payload|env ? request_id action].
  - destruct (create_event_cases env cu.1 payload db) as [->|[Hfresh ->]];
      [done|].
    apply pending_sides_owned_with_events; [|done].
    intros slot e k s He _ _. exists e. split; [|done].
    rewrite lookup_insert_ne; [done|]. intros E. congruence.
  - destruct (update_event_cases env cu.1 event_id payload db)
      as [->|(e0 & He0 & _ & ->)]; [done|].
    apply pending_sides_owned_with_events; [|done].
    intros slot e k s He _ _.
    destruct (decide (event_id = slot)) as [->|Hne].
    + rewrite lookup_insert_eq. eexists. split; [done|].
      rewrite apply_update_owner_id. congruence.
    + rewrite lookup_insert_ne by done. by exists e.
  - destruct (delete_event_cases env cu.1 event_id db) as [->|[Hfree ->]];
      [done|].
    apply pending_sides_owned_with_events; [|done].
    intros slot e k s He Hs Href. exists e. split; [|done].
    rewrite lookup_delete_ne; [done|].
    intros ->. apply Hfree. by exists k, s.
  - destruct (request_swap_state env cu payload db)
      as [->|(a & b & Ha & Hb & Hao & Hbo & Hfresh & ->)]; [done|].
    intros k s. simpl. rewrite lookup_insert_Some.
    intros [[<- <-]|[Hk Hs]] Hp; simpl.
    + destruct (alter_keeps_owner (Event.set_status SWAP_PENDING)
                  (my_slot_id payload) _ _ _ (λ _, eq_refl) Ha)
        as (a1 & Ha1 & Hao1).
      destruct (alter_keeps_owner (Event.set_status SWAP_PENDING)
                  (their_slot_id payload) _ _ _ (λ _, eq_refl) Ha1)
        as (a2 & Ha2 & Hao2).
      destruct (alter_keeps_owner (Event.set_status SWAP_PENDING)
                  (my_slot_id payload) _ _ _ (λ _, eq_refl) Hb)
        as (b1 & Hb1 & Hbo1).
      destruct (alter_keeps_owner (Event.set_status SWAP_PENDING)
                  (their_slot_id payload) _ _ _ (λ _, eq_refl) Hb1)
        as (b2 & Hb2 & Hbo2).
      exists a2, b2. split_and!; congruence.
    + destruct (Hown k s Hs Hp) as (a0 & b0 & Ha0 & Hb0 & Hao0 & Hbo0).
      destruct (alter_keeps_owner (Event.set_status SWAP_PENDING)
                  (my_slot_id payload) _ _ _ (λ _, eq_refl) Ha0)
        as (a1 & Ha1 & Hao1).
      destruct (alter_keeps_owner (Event.set_status SWAP_PENDING)
                  (their_slot_id payload) _ _ _ (λ _, eq_refl) Ha1)
        as (a2 & Ha2 & Hao2).
      destruct (alter_keeps_owner (Event.set_status SWAP_PENDING)
                  (my_slot_id payload) _ _ _ (λ _, eq_refl) Hb0)
        as (b1 & Hb1 & Hbo1).
      destruct (alter_keeps_owner (Event.set_status SWAP_PENDING)
                  (their_slot_id payload) _ _ _ (λ _, eq_refl) Hb1)
        as (b2 & Hb2 & Hbo2).
      exists a2, b2. split_and!; congruence.
  - destruct (respond_to_swap_state env cu.1 request_id action db)
      as [->|(R & o & q & HR & Ho & Hq & HpR & ->)]; [done|].
    assert (∀ slot, ¬ references slot R →
              events (responded env request_id action R o q db) !! slot
              = events db !! slot) as Hframe.
    { intros slot Hn. unfold responded. destruct (negb (accepted action)); simpl.
      - by rewrite lookup_reject_swap, decide_False.
      - by apply lookup_accept_swap_other. }
    intros k s Hs Hp.
    assert (k ≠ request_id ∧ swap_requests db !! k = Some s) as [Hk Hs'].
    { revert Hs. unfold responded.
      destruct (negb (accepted action)); simpl; rewrite lookup_insert_Some;
        (intros [[<- <-]|[Hk Hs]]; [done|by split]). }
    destruct (Hown k s Hs' Hp) as (a & b & Ha & Hb & Hao & Hbo).
    exists a, b. split_and!; [| |done|done].
    + rewrite Hframe; [done|]. intros Href. apply Hk.
      by eapply (Hone _ k request_id s R Hs' HR Hp HpR (or_introl eq_refl)).
    + rewrite Hframe; [done|]. intros Href. apply Hk.
      by eapply (Hone _ k request_id s R Hs' HR Hp HpR (or_intror eq_refl)).
Qed.

(** X11. As long as nobody has set the status of a SWAP_PENDING slot through
    [update_event], every PENDING swap request is what it was when it was
    made: its offered slot exists and belongs to the requester, its
    requested slot exists and belongs to somebody else. *)
Theorem pending_requests_stay_between_their_parties db :
  reachable_without_edits_of_locked_slots db → pending_sides_owned db.
Proof.
  intros Hreach. induction Hreach as [us|op db Hreach IH Hguard].
  - intros k s Hs. simpl in Hs. by rewrite lookup_empty in Hs.
  - apply pending_sides_owned_run; [|done].
    destruct (at_most_one_pending_without_edits_of_locked_slots db Hreach).
    by split.
Qed.

Lemma pending_requests_stay_witness :
  ∃ a b,
    events Scenario.db1 !! 10%N = Some a ∧
    events Scenario.db1 !! 20%N = Some b ∧
    Event.owner_id a = 1%N ∧ Event.owner_id b ≠ 1%N.
Proof.
  assert (reachable_without_edits_of_locked_slots Scenario.db1) as Hreach.
  { unfold reachable_without_edits_of_locked_slots.
    replace Scenario.db1 with
      (foldl (λ db op, run op db) (mkDatabase Scenario.registered ∅ ∅)
         (Scenario.setup ++
          [RequestSwap (Scenario.env 100 1000) 1 (mkSwapRequestCreate 10 20)]))
      by (vm_compute; reflexivity).
    unfold Scenario.setup. cbn [foldl app].
    repeat (apply reachable_step;
            [|vm_compute; first [by intros [] | by intros [_ [=]]]]).
    constructor. }
  exact (pending_requests_stay_between_their_parties Scenario.db1 Hreach
           100%N (SwapRequest.mk 1 10 20 PENDING 1000 1000) eq_refl eq_refl).
Defined.

(** ** Events: create, read, update, delete *)

(** X12. A [create_event] that succeeds has stored one new event under the
    generated key, which was free: BUSY, owned by the caller, with the
    title and times of the payload.  Nothing else has changed, and a
    [get_event] of that key by the caller returns what [create_event]
    returned. *)
Theorem create_event_then_get env u payload db r db' :
  create_event env u payload db = (r, db') →
  is_success r →
  events db !! uuid4 env = None ∧
  events db' =
    <[uuid4 env := Event.mk (EventCreate.title payload)
                     (EventCreate.start_time payload)
                     (EventCreate.end_time payload) BUSY u]> (events db) ∧
  users db' = users db ∧ swap_requests db' = swap_requests db ∧
  get_event u (uuid4 env) db' = (r, db').
Proof.
  unfold create_event, insert_row, commit, refresh_ok.
  destruct (events db !! uuid4 env) eqn:Hfresh; simpl; [by intros [= <- _]|].
  destruct (store env); simpl; [|by intros [= <- _]..].
  intros [= <- <-] _. split_and!; try done.
  unfold get_event, query_own_event. simpl. rewrite lookup_insert_eq. simpl.
  by rewrite decide_True.
Qed.

Lemma create_event_then_get_witness :
  events (mkDatabase Scenario.registered ∅ ∅) !! 10%N = None ∧
  get_event 1 10
    (create_event (Scenario.env 10 1) 1 (EventCreate.mk "standup" 100 130)
       (mkDatabase Scenario.registered ∅ ∅)).2
  = create_event (Scenario.env 10 1) 1 (EventCreate.mk "standup" 100 130)
      (mkDatabase Scenario.registered ∅ ∅).
Proof.
  pose (created := create_event (Scenario.env 10 1) 1
                     (EventCreate.mk "standup" 100 130)
                     (mkDatabase Scenario.registered ∅ ∅)).
  destruct (create_event_then_get (Scenario.env 10 1) 1%N
              (EventCreate.mk "standup" 100 130)
              (mkDatabase Scenario.registered ∅ ∅) created.1 created.2
              (surjective_pairing created) I)
    as (H1 & _ & _ & _ & H2).
  split; [exact H1|exact H2].
Defined.

(** X13. An [update_event] that succeeds was made by the owner of the event.
    It rewrites that one row: each field named in the payload takes the
    payload's value, the status too, whatever the status was; each field
    left out keeps its value, and the owner is never changed.  A payload
    that names no field changes nothing.  A [get_event] by the owner
    afterwards returns what [update_event] returned. *)
Theorem update_event_writes_named_fields env u event_id payload db r db' :
  update_event env u event_id payload db = (r, db') →
  is_success r →
  ∃ e e',
    events db !! event_id = Some e ∧ Event.owner_id e = u ∧
    events db' = <[event_id := e']> (events db) ∧
    users db' = users db ∧ swap_requests db' = swap_requests db ∧
    Event.owner_id e' = Event.owner_id e ∧
    Event.title e' = default (Event.title e) (EventUpdate.title payload) ∧
    Event.start_time e'
      = default (Event.start_time e) (EventUpdate.start_time payload) ∧
    Event.end_time e'
      = default (Event.end_time e) (EventUpdate.end_time payload) ∧
    Event.status e' = default (Event.status e) (EventUpdate.status payload) ∧
    (payload = EventUpdate.mk None None None None → db' = db) ∧
    get_event u event_id db' = (r, db').
Proof.
  unfold update_event, commit, refresh_ok.
  destruct (query_own_event event_id u db) as [e|] eqn:Hq; [|by intros [= <- _]].
  apply query_own_event_Some in Hq as [He Hu].
  destruct (store env); simpl; [|by intros [= <- _]..].
  intros [= <- <-] _. exists e, (apply_update payload e).
  split_and!; try done.
  - apply apply_update_owner_id.
  - unfold apply_update. destruct payload as [[?|] [?|] [?|] [?|]]; by destruct e.
  - unfold apply_update. destruct payload as [[?|] [?|] [?|] [?|]]; by destruct e.
  - unfold apply_update. destruct payload as [[?|] [?|] [?|] [?|]]; by destruct e.
  - unfold apply_update. destruct payload as [[?|] [?|] [?|] [?|]]; by destruct e.
  - intros ->. unfold with_events. simpl. rewrite insert_id by done.
    by destruct db.
  - unfold get_event, query_own_event. simpl. rewrite lookup_insert_eq. simpl.
    rewrite apply_update_owner_id. by rewrite decide_True.
Qed.

Lemma update_event_writes_named_fields_witness :
  ∃ e e',
    events Scenario.db1 !! 10%N = Some e ∧ Event.owner_id e = 1%N ∧
    events Scenario.withdrawn = <[10%N := e']> (events Scenario.db1) ∧
    Event.title e' = Event.title e ∧
    Event.status e' = BUSY.
Proof.
  pose (updated := update_event (Scenario.env 0 1500) 1 10 Scenario.make_busy
                     Scenario.db1).
  destruct (update_event_writes_named_fields (Scenario.env 0 1500) 1%N 10%N
              Scenario.make_busy Scenario.db1 updated.1 updated.2
              (surjective_pairing updated) I)
    as (e & e' & H1 & H2 & H3 & _ & _ & _ & H4 & _ & _ & H5 & _).
  exists e, e'. split; [exact H1|]. split; [exact H2|]. split; [exact H3|].
  split; [exact H4|exact H5].
Defined.

(** X14. A [delete_event] that succeeds was made by the owner of an event
    that no swap request points at.  The event is gone, every other event,
    every user and every swap request is as before, and a [get_event] of
    the key is answered 404 from then on, for the former owner as for
    anybody. *)
Theorem delete_event_then_get env u event_id db r db' :
  delete_event env u event_id db = (r, db') →
  is_success r →
  (∃ e, events db !! event_id = Some e ∧ Event.owner_id e = u) ∧
  ¬ referenced event_id db ∧
  events db' = delete event_id (events db) ∧
  users db' = users db ∧ swap_requests db' = swap_requests db ∧
  ∀ w, get_event w event_id db'
         = (raise HTTP_404_NOT_FOUND "Event not found", db').
Proof.
  unfold delete_event, commit.
  destruct (query_own_event event_id u db) as [e|] eqn:Hq; [|by intros [= <- _]].
  apply query_own_event_Some in Hq as [He Hu].
  destruct (decide (referenced event_id db)); [by intros [= <- _]|].
  destruct (store env); simpl; [|by intros [= <- _]|];
    (intros [= <- <-] _; split_and!; try done; [by exists e|];
     intros w; unfold get_event, query_own_event; simpl;
     by rewrite lookup_delete_eq).
Qed.

Lemma delete_event_then_get_witness :
  events (delete_event (Scenario.env 0 7) 3 30 Scenario.db0).2
    = delete 30%N (events Scenario.db0) ∧
  get_event 3 30 (delete_event (Scenario.env 0 7) 3 30 Scenario.db0).2
    = (raise HTTP_404_NOT_FOUND "Event not found",
       (delete_event (Scenario.env 0 7) 3 30 Scenario.db0).2).
Proof.
  pose (deleted := delete_event (Scenario.env 0 7) 3 30 Scenario.db0).
  destruct (delete_event_then_get (Scenario.env 0 7) 3%N 30%N Scenario.db0
              deleted.1 deleted.2 (surjective_pairing deleted) I)
    as (_ & _ & H1 & _ & _ & H2).
  split; [exact H1|exact (H2 3%N)].
Defined.

(** X15. An event that a swap request points at, whatever the status of the
    request, cannot be deleted: the foreign keys of [swap_requests] have no
    ON DELETE rule and the handler catches nothing, so [delete_event] by
    its owner is answered 500 and the database is left as it was. *)
Theorem event_of_a_swap_request_cannot_be_deleted
    env u event_id db e k s :
  events db !! event_id = Some e → Event.owner_id e = u →
  swap_requests db !! k = Some s → references event_id s →
  delete_event env u event_id db = (unhandled, db).
Proof.
  intros He Hu Hs Href. unfold delete_event, query_own_event.
  rewrite He. simpl. rewrite decide_True by done.
  rewrite decide_True; [done|]. by exists k, s.
Qed.

Lemma event_of_a_swap_request_witness :
  delete_event (Scenario.env 0 4000) 2 10 Scenario.accepted_by_bob.2
    = (unhandled, Scenario.accepted_by_bob.2).
Proof.
  exact (event_of_a_swap_request_cannot_be_deleted (Scenario.env 0 4000) 2%N
           10%N Scenario.accepted_by_bob.2 (Event.mk "standup" 100 130 BUSY 2)
           100%N (SwapRequest.mk 1 10 20 ACCEPTED 1000 2000)
           eq_refl eq_refl eq_refl (or_introl eq_refl)).
Defined.

(** ** More on the listings *)

#[local] Instance own_start_time_asc_total : Total own_start_time_asc.
Proof. intros a b. unfold own_start_time_asc. lia. Qed.

#[local] Instance own_start_time_asc_trans : Transitive own_start_time_asc.
Proof. intros a b c. unfold own_start_time_asc. lia. Qed.

Lemma elem_of_own_rows u db k e :
  (k, e) ∈ own_rows u db ↔ events db !! k = Some e ∧ Event.owner_id e = u.
Proof.
  unfold own_rows. rewrite merge_sort_Permutation, list_elem_of_filter.
  rewrite elem_of_map_to_list. simpl. by split; intros [??].
Qed.

(** X16. [list_events] returns, without changing the database, exactly the
    events owned by the caller, each once, in ascending order of start
    instant. *)
Theorem list_events_exact_and_sorted u db :
  ∃ result,
    list_events u db = (Return result, db) ∧
    (∀ x, x ∈ result ↔
       ∃ k e, events db !! k = Some e ∧ Event.owner_id e = u ∧
              x = EventResponse.model_validate k e) ∧
    NoDup (EventResponse.id <$> result) ∧
    StronglySorted response_start_time_asc result.
Proof.
  eexists. split; [reflexivity|]. split_and!.
  - intros x. rewrite list_elem_of_fmap. split.
    + intros ([k e] & -> & Hin). apply elem_of_own_rows in Hin as [??].
      by exists k, e.
    + intros (k & e & He & Hu & ->). exists (k, e). split; [done|].
      by apply elem_of_own_rows.
  - rewrite <- list_fmap_compose. unfold own_rows.
    rewrite merge_sort_Permutation.
    eapply sublist_NoDup; [apply (NoDup_fst_map_to_list (events db))|].
    apply fmap_sublist, sublist_filter.
  - eapply StronglySorted_fmap; [|apply StronglySorted_merge_sort; apply _].
    by intros a b.
Qed.

(** X17. The two listings of slots complement each other.  Under the
    foreign keys of the schema, a SWAPPABLE slot is shown to its owner by
    [list_events] and to every other user by [list_swappable_slots]; and
    no slot is shown to the same user by both. *)
Theorem own_and_swappable_listings_complement u db :
  foreign_keys db →
  ∃ own swappable,
    list_events u db = (Return own, db) ∧
    list_swappable_slots u db = (Return swappable, db) ∧
    (∀ k e, events db !! k = Some e → Event.status e = SWAPPABLE →
       (Event.owner_id e = u ∧ EventResponse.model_validate k e ∈ own) ∨
       (Event.owner_id e ≠ u ∧
        ∃ x, x ∈ swappable ∧
             SwappableEventResponse.event x = EventResponse.model_validate k e)) ∧
    (∀ x y, x ∈ own → y ∈ swappable →
       EventResponse.id x ≠ EventResponse.id (SwappableEventResponse.event y)).
Proof.
  intros [Hfk _]. eexists _, _.
  split; [reflexivity|]. split; [reflexivity|]. split.
  - intros k e He Hs.
    destruct (decide (Event.owner_id e = u)) as [Hu|Hu]; [left|right].
    + split; [done|].
      apply (list_elem_of_fmap_2' _ _ (k, e)); [|done].
      by apply elem_of_own_rows.
    + split; [done|]. destruct (Hfk _ _ He) as [owner Ho].
      exists (swappable_response (k, e, User.name owner)). split; [|done].
      apply list_elem_of_fmap_2, elem_of_swappable_rows.
      split_and!; [done..|]. by exists owner.
  - intros x y Hx Hy.
    apply list_elem_of_fmap in Hx as ([k e] & -> & Hin).
    apply elem_of_own_rows in Hin as [He Hu].
    apply list_elem_of_fmap in Hy as ([[k' e'] n] & -> & Hin').
    apply elem_of_swappable_rows in Hin' as (He' & _ & Hu' & _).
    simpl. intros <-. congruence.
Qed.

Lemma own_and_swappable_listings_witness :
  ∃ own swappable,
    list_events 1 Scenario.db0 = (Return own, Scenario.db0) ∧
    list_swappable_slots 1 Scenario.db0 = (Return swappable, Scenario.db0) ∧
    (∀ x y, x ∈ own → y ∈ swappable →
       EventResponse.id x ≠ EventResponse.id (SwappableEventResponse.event y)).
Proof.
  assert (foreign_keys Scenario.db0) as Hfk
    by (apply (bool_decide_unpack _); vm_compute; exact I).
  destruct (own_and_swappable_listings_complement 1%N Scenario.db0 Hfk)
    as (own & swappable & H1 & H2 & _ & H3).
  exists own, swappable. split; [exact H1|]. split; [exact H2|exact H3].
Defined.

(** X18. Once a swap request has been made, it is in the requester's
    outgoing list and in the incoming list of the owner of the requested
    slot, PENDING in both; and neither of its two slots is offered to
    anybody by [list_swappable_slots] any more. *)
Theorem request_swap_shows_in_listings env u payload db a b :
  events db !! my_slot_id payload = Some a →
  events db !! their_slot_id payload = Some b →
  Event.owner_id a = u.1 → Event.owner_id b ≠ u.1 →
  Event.status a = SWAPPABLE → Event.status b = SWAPPABLE →
  commit_ok env = true → swap_requests db !! uuid4 env = None →
  is_Some (users db !! u.1) →
  let db1 := (request_swap env u payload db).2 in
  ∃ outgoing incoming,
    list_outgoing_requests u.1 db1 = (Return outgoing, db1) ∧
    list_incoming_requests (Event.owner_id b) db1 = (Return incoming, db1) ∧
    (∃ x, x ∈ outgoing ∧ SwapRequestResponse.id x = uuid4 env ∧
          SwapRequestResponse.status x = PENDING) ∧
    (∃ x, x ∈ incoming ∧ SwapRequestResponse.id x = uuid4 env ∧
          SwapRequestResponse.status x = PENDING) ∧
    ∀ w swappable y,
      list_swappable_slots w db1 = (Return swappable, db1) →
      y ∈ swappable →
      EventResponse.id (SwappableEventResponse.event y) ≠ my_slot_id payload ∧
      EventResponse.id (SwappableEventResponse.event y) ≠ their_slot_id payload.
Proof.
  intros Ha Hb Hown Hother Hsa Hsb Hok Hfresh [usr Hu] db1.
  destruct (request_swap_then_pending _ _ _ _ _ _
              Ha Hb Hown Hother Hsa Hsb Hok Hfresh)
    as (Hne & Hus & HR & Ha1 & Hb1).
  fold db1 in Hus, HR, Ha1, Hb1.
  eexists _, _. split; [reflexivity|]. split; [reflexivity|].
  pose (row := (uuid4 env,
                SwapRequest.mk u.1 (my_slot_id payload) (their_slot_id payload)
                  PENDING (now env) (now env),
                Event.set_status SWAP_PENDING a,
                Event.set_status SWAP_PENDING b, usr)).
  split_and!.
  - exists (swap_response row). split; [|done].
    apply list_elem_of_fmap_2, elem_of_outgoing_rows.
    split_and!; try done. simpl. by rewrite Hus.
  - exists (swap_response row). split; [|done].
    apply list_elem_of_fmap_2, elem_of_incoming_rows.
    split_and!; try done. simpl. by rewrite Hus.
  - intros w swappable y [= <-] Hy.
    apply list_elem_of_fmap in Hy as ([[k e] n] & -> & Hin).
    apply elem_of_swappable_rows in Hin as (He & Hs & _).
    simpl. split; intros ->.
    + rewrite Ha1 in He. injection He as <-. done.
    + rewrite Hb1 in He. injection He as <-. done.
Qed.

Lemma request_swap_shows_in_listings_witness :
  ∃ outgoing incoming,
    list_outgoing_requests 1 Scenario.db1 = (Return outgoing, Scenario.db1) ∧
    list_incoming_requests 2 Scenario.db1 = (Return incoming, Scenario.db1) ∧
    (∃ x, x ∈ outgoing ∧ SwapRequestResponse.id x = 100%N ∧
          SwapRequestResponse.status x = PENDING) ∧
    (∃ x, x ∈ incoming ∧ SwapRequestResponse.id x = 100%N ∧
          SwapRequestResponse.status x = PENDING).
Proof.
  destruct (request_swap_shows_in_listings (Scenario.env 100 1000)
              (1%N, Scenario.alice) (mkSwapRequestCreate 10 20) Scenario.db0
              Scenario.S1 Scenario.S2
              eq_refl eq_refl eq_refl ltac:(discriminate) eq_refl eq_refl
              eq_refl eq_refl ltac:(by eexists))
    as (outgoing & incoming & H1 & H2 & H3 & H4 & _).
  exists outgoing, incoming.
  split; [exact H1|]. split; [exact H2|]. split; [exact H3|exact H4].
Defined.

Lemma respond_to_swap_Return_row env u request_id action db resp db' :
  respond_to_swap env u request_id action db = (Return resp, db') →
  ∃ swap' o' q' requester,
    swap_requests db' !! request_id = Some swap' ∧
    events db' !! SwapRequest.offered_event_id swap' = Some o' ∧
    events db' !! SwapRequest.requested_event_id swap' = Some q' ∧
    users db' !! SwapRequest.requester_id swap' = Some requester ∧
    SwapRequest.status swap' = (if accepted action then ACCEPTED else REJECTED) ∧
    resp = swap_response (request_id, swap', o', q', requester).
Proof.
  unfold respond_to_swap, commit, refresh_ok.
  destruct (swap_requests db !! request_id) as [swap|]; [|done].
  destruct (events db !! SwapRequest.offered_event_id swap) as [o|]; [|done].
  destruct (events db !! SwapRequest.requested_event_id swap) as [q|]; [|done].
  destruct (decide (Event.owner_id q ≠ u)); [done|].
  destruct (decide (SwapRequest.status swap ≠ PENDING)); [done|].
  destruct (store env); [|by destruct (negb (accepted action))..].
  destruct (accepted action); simpl.
  - destruct (users db !! SwapRequest.requester_id swap) as [usr|] eqn:Hu;
      [|done].
    destruct (accept_swap swap o q (events db) !! SwapRequest.offered_event_id swap)
      as [o'|] eqn:Ho'; [|done].
    destruct (accept_swap swap o q (events db) !! SwapRequest.requested_event_id swap)
      as [q'|] eqn:Hq'; [|done].
    intros [= <- <-]. exists (SwapRequest.set_status ACCEPTED (now env) swap),
      o', q', usr. simpl. split_and!; try done. apply lookup_insert_eq.
  - destruct (users db !! SwapRequest.requester_id swap) as [usr|] eqn:Hu;
      [|done].
    destruct (reject_swap swap (events db) !! SwapRequest.offered_event_id swap)
      as [o'|] eqn:Ho'; [|done].
    destruct (reject_swap swap (events db) !! SwapRequest.requested_event_id swap)
      as [q'|] eqn:Hq'; [|done].
    intros [= <- <-]. exists (SwapRequest.set_status REJECTED (now env) swap),
      o', q', usr. simpl. split_and!; try done. apply lookup_insert_eq.
Qed.

(** X19. Once a swap request has been answered, it is in nobody's incoming
    list any more, and what [respond_to_swap] returned is the entry of the
    request, ACCEPTED or REJECTED, in the outgoing list of its requester. *)
Theorem answered_request_in_listings env u request_id action db resp db' :
  respond_to_swap env u request_id action db = (Return resp, db') →
  SwapRequestResponse.id resp = request_id ∧
  SwapRequestResponse.status resp
    = (if accepted action then ACCEPTED else REJECTED) ∧
  (∃ outgoing,
     list_outgoing_requests (SwapRequestResponse.requester_id resp) db'
       = (Return outgoing, db') ∧
     resp ∈ outgoing) ∧
  ∀ w incoming x,
    list_incoming_requests w db' = (Return incoming, db') →
    x ∈ incoming → SwapRequestResponse.id x ≠ request_id.
Proof.
  intros Hrun.
  destruct (respond_to_swap_Return_row _ _ _ _ _ _ _ Hrun)
    as (swap' & o' & q' & usr & Hs & Ho & Hq & Hu & Hst & ->).
  split_and!; [done|done| |].
  - eexists. split; [reflexivity|].
    apply list_elem_of_fmap_2, elem_of_outgoing_rows. by split_and!.
  - intros w incoming x [= <-] Hx.
    apply list_elem_of_fmap in Hx as ([[[[k s] o] q] usr'] & -> & Hin).
    apply elem_of_incoming_rows in Hin as (Hs' & _ & _ & _ & Hp & _).
    simpl. intros ->. assert (s = swap') as -> by congruence.
    rewrite Hst in Hp. by destruct (accepted action).
Qed.

Lemma answered_request_in_listings_witness :
  ∃ outgoing,
    list_outgoing_requests 1 Scenario.accepted_by_bob.2
      = (Return outgoing, Scenario.accepted_by_bob.2) ∧
    SwapRequestResponse.mk 100 1 10 20 ACCEPTED 1000 2000
      (EventResponse.mk 10 "standup" 100 130 BUSY 2)
      (EventResponse.mk 20 "review" 200 260 BUSY 1)
      (UserResponse.mk 1 "alice@example.com" "Alice") ∈ outgoing.
Proof.
  destruct (answered_request_in_listings (Scenario.env 0 2000) 2%N 100%N
              Scenario.accept Scenario.db1
              (SwapRequestResponse.mk 100 1 10 20 ACCEPTED 1000 2000
                 (EventResponse.mk 10 "standup" 100 130 BUSY 2)
                 (EventResponse.mk 20 "review" 200 260 BUSY 1)
                 (UserResponse.mk 1 "alice@example.com" "Alice"))
              Scenario.accepted_by_bob.2 eq_refl)
    as (_ & _ & H & _).
  exact H.
Defined.

(** ** Signing up and logging in *)

Lemma query_user_by_email_None email db :
  ¬ email_registered email db → query_user_by_email email db = None.
Proof.
  intros Hn. unfold query_user_by_email.
  destruct (filter _ _) as [|[k usr] l] eqn:Hl; [done|]. exfalso. apply Hn.
  assert ((k, usr) ∈ filter (λ r : N * User.t, User.email r.2 = email)
                       (map_to_list (users db))) as Hin
    by (rewrite Hl; left).
  apply list_elem_of_filter in Hin as [He Hin].
  apply elem_of_map_to_list in Hin. by exists k, usr.
Qed.

Lemma query_user_by_email_Some email db k usr :
  emails_unique db →
  users db !! k = Some usr → User.email usr = email →
  query_user_by_email email db = Some (k, usr).
Proof.
  intros Huniq Hk He. unfold query_user_by_email.
  assert ((k, usr) ∈ filter (λ r : N * User.t, User.email r.2 = email)
                       (map_to_list (users db))) as Hin.
  { apply list_elem_of_filter. split; [done|]. by apply elem_of_map_to_list. }
  destruct (filter _ _) as [|[k' usr'] l] eqn:Hl; [by apply elem_of_nil in Hin|].
  assert ((k', usr') ∈ filter (λ r : N * User.t, User.email r.2 = email)
                         (map_to_list (users db))) as Hin'
    by (rewrite Hl; left).
  apply list_elem_of_filter in Hin' as [He' Hin'].
  apply elem_of_map_to_list in Hin'. simpl in He'.
  assert (k' = k) as -> by (eapply Huniq; [done..|congruence]).
  simpl. congruence.
Qed.

(** X20. A [signup] with an email that is registered already is answered
    400 "Email already registered" and writes nothing, whatever key is
    generated for the new row. *)
Theorem signup_with_registered_email lib cfg env salt payload db :
  email_registered (UserCreate.email payload) db →
  signup lib cfg env salt payload db
    = (raise HTTP_400_BAD_REQUEST "Email already registered", db).
Proof.
  intros Hreg. unfold signup.
  destruct (insert_row _ _ _); [|done]. by rewrite decide_True.
Qed.

Lemma signup_with_registered_email_witness :
  signup Toy.lib Toy.cfg (mkEnv 4 10 true) "s"
    (UserCreate.mk "bob@example.com" "pw" "Robert") Scenario.db0
  = (raise HTTP_400_BAD_REQUEST "Email already registered", Scenario.db0).
Proof.
  apply signup_with_registered_email.
  apply (bool_decide_unpack _). vm_compute. exact I.
Defined.

Lemma emails_unique_signup lib cfg env salt payload db :
  emails_unique db → emails_unique (signup lib cfg env salt payload db).2.
Proof.
  intros Huniq. unfold signup, insert_row, commit, refresh_ok.
  destruct (users db !! uuid4 env) eqn:Hfresh; [done|].
  destruct (decide (email_registered (UserCreate.email payload) db))
    as [|Hnew]; [done|].
  assert (emails_unique
            (mkDatabase
               (<[uuid4 env := User.mk (UserCreate.email payload)
                    (pwd_context_hash lib salt (UserCreate.password payload))
                    (UserCreate.name payload)]> (users db))
               (events db) (swap_requests db))) as Hgoal.
  { intros k1 k2 u1 u2. simpl. rewrite !lookup_insert_Some.
    intros [[<- <-]|[Hk1 Hu1]] [[<- <-]|[Hk2 Hu2]] He; simpl in *; try done.
    - exfalso. apply Hnew. by exists k2, u2.
    - exfalso. apply Hnew. by exists k1, u1.
    - by eapply Huniq. }
  destruct (store env); simpl; [|done..].
  by destruct (create_access_token lib cfg (now env) (uuid4 env)).
Qed.

(** X21. [signup] keeps emails unique: if no two users share an email
    before the call, none do after it, however the call ends. *)
Theorem signup_keeps_emails_unique lib cfg env salt payload db :
  emails_unique db → emails_unique (signup lib cfg env salt payload db).2.
Proof. apply emails_unique_signup. Qed.

Lemma signup_keeps_emails_unique_witness :
  emails_unique
    (signup Toy.lib Toy.cfg (mkEnv 4 10 true) "s" Toy.dave Scenario.db0).2.
Proof.
  apply signup_keeps_emails_unique.
  intros k1 k2 u1 u2 H1 H2.
  apply elem_of_map_to_list in H1, H2.
  revert k1 u1 H1 k2 u2 H2. vm_compute map_to_list.
  intros k1 u1 H1 k2 u2 H2.
  repeat (apply elem_of_cons in H1 as [[= -> ->]|H1]);
    [..|by apply elem_of_nil in H1];
    (repeat (apply elem_of_cons in H2 as [[= -> ->]|H2]);
       [..|by apply elem_of_nil in H2]);
    by intros [=].
Defined.

(** X22. [login] turns down an unknown email and a wrong password with the
    same answer, 401 "Invalid credentials", and writes nothing either
    way. *)
Theorem login_refusals_are_alike lib cfg utcnow payload db :
  (¬ email_registered (UserLogin.email payload) db →
   login lib cfg utcnow payload db
     = (raise HTTP_401_UNAUTHORIZED "Invalid credentials", db)) ∧
  (∀ k usr,
     emails_unique db →
     users db !! k = Some usr → User.email usr = UserLogin.email payload →
     pwd_context_verify lib (UserLogin.password payload)
       (User.password_hash usr) = false →
     login lib cfg utcnow payload db
       = (raise HTTP_401_UNAUTHORIZED "Invalid credentials", db)).
Proof.
  split.
  - intros Hn. unfold login. by rewrite query_user_by_email_None.
  - intros k usr Huniq Hk He Hv. unfold login.
    rewrite (query_user_by_email_Some _ _ _ _ Huniq Hk He). by rewrite Hv.
Qed.

(** X23. Sign up, then log in.  After a [signup] that has returned a token,
    the user is stored under the generated key with the hash of the
    password, not the password; and, the emails being unique and the
    library verifying the password against that hash, a [login] with the
    same email and password is answered with the token that
    [create_access_token] issues for that key, and writes nothing. *)
Theorem signup_then_login lib cfg env salt utcnow payload db token db' :
  emails_unique db →
  signup lib cfg env salt payload db = (Return token, db') →
  pwd_context_verify lib (UserCreate.password payload)
    (pwd_context_hash lib salt (UserCreate.password payload)) = true →
  users db' !! uuid4 env =
    Some (User.mk (UserCreate.email payload)
            (pwd_context_hash lib salt (UserCreate.password payload))
            (UserCreate.name payload)) ∧
  events db' = events db ∧ swap_requests db' = swap_requests db ∧
  login lib cfg utcnow
      (UserLogin.mk (UserCreate.email payload) (UserCreate.password payload)) db'
    = (match create_access_token lib cfg utcnow (uuid4 env) with
       | Some token' => Return token'
       | None => unhandled
       end, db').
Proof.
  intros Huniq Hrun Hv.
  pose proof (emails_unique_signup lib cfg env salt payload db Huniq)
    as Huniq'.
  rewrite Hrun in Huniq'. simpl in Huniq'.
  revert Hrun. unfold signup, insert_row, commit, refresh_ok.
  destruct (users db !! uuid4 env) eqn:Hfresh; [done|].
  destruct (decide (email_registered (UserCreate.email payload) db)); [done|].
  destruct (store env); simpl; [|done..].
  destruct (create_access_token lib cfg (now env) (uuid4 env)); [|done].
  intros [= _ <-]. simpl in *.
  split; [apply lookup_insert_eq|]. split; [done|]. split; [done|].
  unfold login.
  rewrite (query_user_by_email_Some _ _ (uuid4 env)
             (User.mk (UserCreate.email payload)
                (pwd_context_hash lib salt (UserCreate.password payload))
                (UserCreate.name payload)) Huniq');
    [|apply lookup_insert_eq|done].
  simpl. rewrite Hv. simpl.
  by destruct (create_access_token lib cfg utcnow (uuid4 env)).
Qed.

Lemma emails_unique_db0 : emails_unique Scenario.db0.
Proof.
  intros k1 k2 u1 u2 H1 H2.
  apply elem_of_map_to_list in H1, H2.
  revert k1 u1 H1 k2 u2 H2. vm_compute map_to_list.
  intros k1 u1 H1 k2 u2 H2.
  repeat (apply elem_of_cons in H1 as [[= -> ->]|H1]);
    [..|by apply elem_of_nil in H1];
    (repeat (apply elem_of_cons in H2 as [[= -> ->]|H2]);
       [..|by apply elem_of_nil in H2]);
    by intros [=].
Qed.

Lemma login_refusals_witness :
  login Toy.lib Toy.cfg 20 (UserLogin.mk "erin@example.com" "guess")
      Toy.signed_up.2
    = (raise HTTP_401_UNAUTHORIZED "Invalid credentials", Toy.signed_up.2) ∧
  login Toy.lib Toy.cfg 20 (UserLogin.mk "dave@example.com" "guess")
      Toy.signed_up.2
    = (raise HTTP_401_UNAUTHORIZED "Invalid credentials", Toy.signed_up.2).
Proof.
  split.
  - apply (login_refusals_are_alike Toy.lib Toy.cfg 20
             (UserLogin.mk "erin@example.com" "guess") Toy.signed_up.2).
    apply (bool_decide_unpack _). vm_compute. exact I.
  - apply (proj2 (login_refusals_are_alike Toy.lib Toy.cfg 20
             (UserLogin.mk "dave@example.com" "guess") Toy.signed_up.2)
             4%N (User.mk "dave@example.com" "hashed:correct horse" "Dave")).
    + apply (emails_unique_signup Toy.lib Toy.cfg (mkEnv 4 10 true) "s"
               Toy.dave Scenario.db0 emails_unique_db0).
    + reflexivity.
    + reflexivity.
    + reflexivity.
Defined.

Lemma signup_then_login_witness :
  users Toy.signed_up.2 !! 4%N
    = Some (User.mk "dave@example.com" "hashed:correct horse" "Dave") ∧
  login Toy.lib Toy.cfg 20 (UserLogin.mk "dave@example.com" "correct horse")
      Toy.signed_up.2
    = (Return "secret", Toy.signed_up.2).
Proof.
  destruct (signup_then_login Toy.lib Toy.cfg (mkEnv 4 10 true) "s" 20 Toy.dave
              Scenario.db0 "secret" Toy.signed_up.2
              emails_unique_db0 eq_refl eq_refl) as (H1 & _ & _ & H2).
  split; [exact H1|exact H2].
Defined.

(** X24. [signup] commits the user before it asks for the token, and
    nothing undoes the commit.  When [create_access_token] raises, as it
    does with no secret key configured, a [signup] with a new email is
    answered 500 and yet the user is registered: the same [signup] made
    again is answered 400 "Email already registered". *)
Theorem signup_commits_before_token lib cfg env salt payload db :
  ¬ email_registered (UserCreate.email payload) db →
  users db !! uuid4 env = None →
  commit_ok env = true →
  create_access_token lib cfg (now env) (uuid4 env) = None →
  let db' := (signup lib cfg env salt payload db).2 in
  (signup lib cfg env salt payload db).1 = unhandled ∧
  users db' !! uuid4 env =
    Some (User.mk (UserCreate.email payload)
            (pwd_context_hash lib salt (UserCreate.password payload))
            (UserCreate.name payload)) ∧
  ∀ env' salt',
    signup lib cfg env' salt' payload db'
      = (raise HTTP_400_BAD_REQUEST "Email already registered", db').
Proof.
  intros Hnew Hfresh Hok Htoken db'. subst db'. apply commit_ok_Served in Hok.
  assert (signup lib cfg env salt payload db =
            (unhandled,
             mkDatabase
               (<[uuid4 env := User.mk (UserCreate.email payload)
                    (pwd_context_hash lib salt (UserCreate.password payload))
                    (UserCreate.name payload)]> (users db))
               (events db) (swap_requests db))) as ->.
  { unfold signup, insert_row, commit, refresh_ok.
    rewrite Hfresh, Hok. simpl. rewrite Htoken. by rewrite decide_False by done. }
  simpl. split; [done|]. split; [apply lookup_insert_eq|].
  intros env' salt'. unfold signup.
  destruct (insert_row _ _ _); [|done].
  rewrite decide_True; [done|].
  eexists (uuid4 env), _. split; [apply lookup_insert_eq|done].
Qed.

Lemma signup_commits_before_token_witness :
  Toy.signed_up_without_secret.1 = unhandled ∧
  users Toy.signed_up_without_secret.2 !! 4%N
    = Some (User.mk "dave@example.com" "hashed:correct horse" "Dave") ∧
  signup Toy.lib Toy.no_secret (mkEnv 5 11 true) "t" Toy.dave
      Toy.signed_up_without_secret.2
    = (raise HTTP_400_BAD_REQUEST "Email already registered",
       Toy.signed_up_without_secret.2).
Proof.
  destruct (signup_commits_before_token Toy.lib Toy.no_secret (mkEnv 4 10 true)
              "s" Toy.dave Scenario.db0) as (H1 & H2 & H3).
  - intros (k & usr & Hk & He). apply elem_of_map_to_list in Hk.
    revert Hk He. vm_compute map_to_list. intros Hk.
    repeat (apply elem_of_cons in Hk as [[= -> ->]|Hk]);
      [..|by apply elem_of_nil in Hk]; by intros [=].
  - reflexivity.
  - reflexivity.
  - reflexivity.
  - split; [exact H1|]. split; [exact H2|exact (H3 (mkEnv 5 11 true) "t")].
Defined.

(** ** All or nothing *)

(** X25. However the store serves the request and whatever the answer,
    [request_swap] and [respond_to_swap] write all or nothing: the database
    afterwards is the one before the call, or the one with the request and
    both slots written.  Under the foreign keys of the schema a failure
    has written something only if the store failed after the commit. *)
Theorem swap_operations_write_all_or_nothing
    env u payload responder request_id action db :
  foreign_keys db →
  ((request_swap env u payload db).2 = db ∨
   ∃ a b,
     events db !! my_slot_id payload = Some a ∧
     events db !! their_slot_id payload = Some b ∧
     (request_swap env u payload db).2 =
       mkDatabase (users db)
         (alter (Event.set_status SWAP_PENDING) (their_slot_id payload)
            (alter (Event.set_status SWAP_PENDING) (my_slot_id payload)
               (events db)))
         (<[uuid4 env := SwapRequest.mk u.1 (my_slot_id payload)
                           (their_slot_id payload) PENDING (now env) (now env)]>
            (swap_requests db))) ∧
  ((respond_to_swap env responder request_id action db).2 = db ∨
   ∃ swap offered_event requested_event,
     swap_requests db !! request_id = Some swap ∧
     events db !! SwapRequest.offered_event_id swap = Some offered_event ∧
     events db !! SwapRequest.requested_event_id swap = Some requested_event ∧
     (respond_to_swap env responder request_id action db).2 =
       responded env request_id action swap offered_event requested_event db) ∧
  (store env ≠ FailsAfterCommit →
   (is_failure (request_swap env u payload db).1 →
    (request_swap env u payload db).2 = db) ∧
   (is_failure (respond_to_swap env responder request_id action db).1 →
    (respond_to_swap env responder request_id action db).2 = db)).
Proof.
  intros Hfk. split_and!.
  - destruct (request_swap_state env u payload db)
      as [?|(a & b & ? & ? & _ & _ & _ & ?)]; [by left|].
    right. by exists a, b.
  - destruct (respond_to_swap_state env responder request_id action db)
      as [?|(swap & o & q & ? & ? & ? & _ & ?)]; [by left|].
    right. by exists swap, o, q.
  - intros Hstore.
    destruct (failure_up_to_commit_changes_nothing env u payload responder
                request_id action db Hfk Hstore) as [H1 H2].
    split; intros Hfail.
    + by eapply H1; [apply surjective_pairing|].
    + by eapply H2; [apply surjective_pairing|].
Qed.

Lemma swap_operations_write_all_or_nothing_witness :
  (request_swap (mkEnv 101 3000 false) (1%N, Scenario.alice)
     (mkSwapRequestCreate 10 20) Scenario.db1).2 = Scenario.db1 ∧
  (respond_to_swap (mkEnv 101 3000 false) 2 100 Scenario.accept
     Scenario.db1).2 = Scenario.db1.
Proof.
  assert (foreign_keys Scenario.db1) as Hfk
    by (apply (bool_decide_unpack _); vm_compute; exact I).
  destruct (swap_operations_write_all_or_nothing (mkEnv 101 3000 false)
              (1%N, Scenario.alice) (mkSwapRequestCreate 10 20)
              2%N 100%N Scenario.accept Scenario.db1 Hfk) as (_ & _ & H).
  destruct (H ltac:(done)) as [H1 H2].
  split; [exact (H1 I)|exact (H2 I)].
Defined.
